(** * Service workers of Armin-OS: request routing, caching and hardening

    Shallow embedding of [src/service-worker.js] (the security variant,
    cache generation [arminos-static-v1]) and of the PlanOS worker
    (the cache-first variant, cache generation [planos-pwa-v1]).

    Conventions of the model
    - a JavaScript string is a [string] of code units below 256;
    - a promise is its settled outcome, [Resolved v] or [Rejected e];
      [await] and [.then] are sequencing, [try/catch] and [.catch] are a
      match on the outcome;
    - a value that may be [null] or [undefined] is an [option];
    - what the host platform decides (own origin, URL reader, network,
      JSON reader and printer, whether a cache write is accepted) is a
      variable of the section that uses it;
    - a [Headers] object and a single cache are finite maps, the cache
      storage is an association list in creation order;
    - [new Response(body, init)] with a body checks the status as the
      platform does ([new_Response]): a status outside 200 to 599 and a
      null-body status make it throw; a status text is always a valid
      reason phrase, so that check of the constructor never fails. *)

From Stdlib Require Import Ascii String List Bool Arith NArith Lia.
From stdpp Require Import base option gmap strings list fin_maps.

Local Open Scope string_scope.

(** ** Strings *)

Module Str.

Definition dquote : ascii := ascii_of_nat 34.
Definition squote : ascii := ascii_of_nat 39.

Definition is_upper (c : ascii) : bool :=
  let n := nat_of_ascii c in (65 <=? n)%nat && (n <=? 90)%nat.

Definition is_lower (c : ascii) : bool :=
  let n := nat_of_ascii c in (97 <=? n)%nat && (n <=? 122)%nat.

Definition is_digit (c : ascii) : bool :=
  let n := nat_of_ascii c in (48 <=? n)%nat && (n <=? 57)%nat.

Definition lower_char (c : ascii) : ascii :=
  if is_upper c then ascii_of_nat (nat_of_ascii c + 32) else c.

(** [s.toLowerCase()], on the letters A to Z. *)
Fixpoint toLowerCase (s : string) : string :=
  match s with
  | EmptyString => EmptyString
  | String c s' => String (lower_char c) (toLowerCase s')
  end.

(** [s.startsWith(p)] *)
Fixpoint startsWith (p s : string) : bool :=
  match p with
  | EmptyString => true
  | String a p' =>
      match s with
      | EmptyString => false
      | String b s' => Ascii.eqb a b && startsWith p' s'
      end
  end.

(** [s.includes(p)] *)
Fixpoint includes (p s : string) : bool :=
  startsWith p s ||
  match s with
  | EmptyString => false
  | String _ s' => includes p s'
  end.

(** [x || ''] for a string that may be [null]; the empty string is falsy
    as well and yields itself. *)
Definition or_empty (x : option string) : string :=
  match x with Some s => s | None => "" end.

End Str.

(** ** Regular expressions

    The three patterns of [sanitizeString] are written in a small syntax
    and run by a backtracking matcher with the priorities of the
    JavaScript one: alternatives left to right, a greedy star tries one
    more iteration before the continuation, a lazy star the continuation
    first. All three patterns carry the flags [g] and [i]. *)

Module Regex.

Inductive regex : Type :=
| Chr (c : ascii)                 (* a literal, compared without case *)
| Cls (p : ascii -> bool)         (* a character class *)
| Seq (r1 r2 : regex)
| Alt (r1 r2 : regex)
| Star (greedy : bool) (r : regex).

(** [r+] *)
Definition Plus (r : regex) : regex := Seq r (Star true r).

(** a literal word *)
Fixpoint Lit (s : string) (k : regex) : regex :=
  match s with
  | EmptyString => k
  | String c s' => Seq (Chr c) (Lit s' k)
  end.

(** [\w] *)
Definition word (c : ascii) : bool :=
  Str.is_upper c || Str.is_lower c || Str.is_digit c || Ascii.eqb c "_".

(** [\s], on code units below 256 *)
Definition space (c : ascii) : bool :=
  let n := nat_of_ascii c in
  ((9 <=? n)%nat && (n <=? 13)%nat) || (n =? 32)%nat || (n =? 160)%nat.

(** [[\s\S]] *)
Definition any (c : ascii) : bool := space c || negb (space c).

Definition none_of (l : list ascii) (c : ascii) : bool :=
  negb (existsb (Ascii.eqb c) l).

Definition K := list ascii -> option (list ascii).

(** [run r s k]: match [r] at the head of [s], then hand the rest to the
    continuation [k]; the answer is what is left after the whole match.
    An iteration of a star that consumes nothing is not taken, so the
    count [n] below never runs out before the input does. *)
Fixpoint run (r : regex) (s : list ascii) (k : K) {struct r} : option (list ascii) :=
  match r with
  | Chr c =>
      match s with
      | x :: s' => if Ascii.eqb (Str.lower_char c) (Str.lower_char x) then k s' else None
      | [] => None
      end
  | Cls p =>
      match s with
      | x :: s' => if p x then k s' else None
      | [] => None
      end
  | Seq r1 r2 => run r1 s (fun s1 => run r2 s1 k)
  | Alt r1 r2 =>
      match run r1 s k with
      | Some rest => Some rest
      | None => run r2 s k
      end
  | Star greedy r1 =>
      (fix loop (n : nat) (s : list ascii) {struct n} : option (list ascii) :=
         let more :=
           match n with
           | O => None
           | S n' =>
               run r1 s (fun s1 =>
                 if (length s1 <? length s)%nat then loop n' s1 else None)
           end in
         if greedy
         then match more with Some rest => Some rest | None => k s end
         else match k s with Some rest => Some rest | None => more end)
        (length s) s
  end.

(** The match that starts at the head of [s], if any: what follows it. *)
Definition exec (r : regex) (s : list ascii) : option (list ascii) :=
  run r s (fun rest => Some rest).

(** [s.replace(/r/g, by)]: scan left to right; a match is replaced and the
    scan resumes behind it (one unit further after an empty match). *)
Fixpoint replace_loop (n : nat) (r : regex) (by_ : list ascii) (s : list ascii)
  : list ascii :=
  match n with
  | O => s
  | S n' =>
      match exec r s with
      | Some rest =>
          if (length rest <? length s)%nat
          then by_ ++ replace_loop n' r by_ rest
          else match s with
               | [] => by_
               | c :: s' => by_ ++ c :: replace_loop n' r by_ s'
               end
      | None =>
          match s with
          | [] => []
          | c :: s' => c :: replace_loop n' r by_ s'
          end
      end
  end.

Definition replace (r : regex) (by_ : string) (s : string) : string :=
  let l := list_ascii_of_string s in
  string_of_list_ascii
    (replace_loop (S (length l)) r (list_ascii_of_string by_) l).

End Regex.

(** ** JSON values *)

#[local] Unset Elimination Schemes.

Inductive JSON : Type :=
| JNull
| JBool (b : bool)
| JNumber (repr : string)          (* a double, by its decimal form *)
| JString (s : string)
| JArray (items : list JSON)
| JObject (entries : list (string * JSON)).

#[local] Set Elimination Schemes.

(** ** The sanitizer of the security variant *)

Module Sanitizer.
Import Regex.

(** [/<script[\s\S]*?>[\s\S]*?<\/script>/gi] *)
Definition script_block : regex :=
  Lit "<script"
      (Seq (Star false (Cls any))
           (Seq (Chr ">")
                (Seq (Star false (Cls any))
                     (Lit "</script" (Chr ">"))))).

(** [/on\w+\s*=\s*(?:Q[^Q]*Q|'[^']*'|[^\s>]+)/gi], where [Q] stands for
    the double quote *)
Definition event_handler : regex :=
  Lit "on"
      (Seq (Plus (Cls word))
           (Seq (Star true (Cls space))
                (Seq (Chr "=")
                     (Seq (Star true (Cls space))
                          (Alt (Seq (Chr Str.dquote)
                                    (Seq (Star true (Cls (none_of [Str.dquote])))
                                         (Chr Str.dquote)))
                               (Alt (Seq (Chr Str.squote)
                                         (Seq (Star true (Cls (none_of [Str.squote])))
                                              (Chr Str.squote)))
                                    (Plus (Cls (fun c => negb (space c || Ascii.eqb c ">")))))))))).

(** [/javascript:/gi] *)
Definition javascript_scheme : regex :=
  Lit "javascript" (Chr ":").

Definition sanitizeString (s : string) : string :=
  replace javascript_scheme ""
    (replace event_handler ""
       (replace script_block "" s)).

(** Setting or adding the own property [k] of an object literal. *)
Fixpoint obj_set (out : list (string * JSON)) (k : string) (v : JSON)
  : list (string * JSON) :=
  match out with
  | [] => [(k, v)]
  | (k', v') :: out' =>
      if String.eqb k' k then (k', v) :: out' else (k', v') :: obj_set out' k v
  end.

(** [out[k] = v] on an object literal [out = {}]: the own property is
    set or added, except under the name [__proto__], where the assignment
    reaches the accessor inherited from [Object.prototype] and leaves the
    own properties as they were. *)
Definition assign (out : list (string * JSON)) (k : string) (v : JSON)
  : list (string * JSON) :=
  if String.eqb k "__proto__" then out else obj_set out k v.

Fixpoint sanitizeJsonStrings (obj : JSON) : JSON :=
  match obj with
  | JNull => JNull
  | JString s => JString (sanitizeString s)
  | JArray items => JArray (List.map sanitizeJsonStrings items)
  | JObject entries =>
      JObject
        (fold_left
           (fun out kv => assign out (fst kv) (sanitizeJsonStrings (snd kv)))
           entries [])
  | other => other
  end.

(** What assigning [f] of every entry, in order, leaves under [k]. *)
Fixpoint last_set (f : JSON -> JSON) (entries : list (string * JSON)) (k : string)
    (acc : option JSON) : option JSON :=
  match entries with
  | [] => acc
  | kv :: rest =>
      last_set f rest k (if String.eqb (fst kv) k then Some (f (snd kv)) else acc)
  end.

End Sanitizer.


(** ** Platform objects *)

(** A thrown value: an [Error] with its name and message. *)
Record Error : Type := { name : string; message : string }.

Inductive Promise (A : Type) : Type :=
| Resolved (a : A)
| Rejected (e : Error).

Arguments Resolved {A} a.
Arguments Rejected {A} e.

(** [await p] followed by the rest [k] of an async function: the value
    of a resolved promise is passed on, a rejection is thrown and, not
    caught, rejects the promise of the function. *)
Definition await {A B : Type} (p : Promise A) (k : A -> Promise B) : Promise B :=
  match p with
  | Resolved a => k a
  | Rejected e => Rejected e
  end.

(** [Headers]: one value per header name, names compared without case. *)
Module Headers.

Definition get (h : gmap string string) (k : string) : option string :=
  h !! Str.toLowerCase k.

Definition set (h : gmap string string) (k v : string) : gmap string string :=
  <[Str.toLowerCase k := v]> h.

Definition delete (h : gmap string string) (k : string) : gmap string string :=
  base.delete (Str.toLowerCase k) h.

(** [new Headers(obj)] for an object literal, and
    [Object.entries(obj).forEach(([k, v]) => h.set(k, v))]. *)
Definition set_all (h : gmap string string) (obj : list (string * string))
  : gmap string string :=
  fold_left (fun h kv => set h (fst kv) (snd kv)) obj h.

(** The value the assignments of [obj], in order, leave under the lower
    case name [k]; [acc] when none of them names it. *)
Fixpoint assigned (obj : list (string * string)) (k : string) (acc : option string)
  : option string :=
  match obj with
  | [] => acc
  | kv :: rest =>
      assigned rest k
        (if String.eqb (Str.toLowerCase (fst kv)) k then Some (snd kv) else acc)
  end.

End Headers.

Record Response : Type := {
  status : N;
  statusText : string;
  headers : gmap string string;
  body : string
}.

(** [response.ok] *)
Definition ok (r : Response) : bool :=
  (200 <=? status r)%N && (status r <=? 299)%N.

(** The statuses of an answer that has no body. *)
Definition null_body_status (st : N) : bool :=
  (st =? 101)%N || (st =? 103)%N || (st =? 204)%N || (st =? 205)%N || (st =? 304)%N.

(** The statuses [new Response] accepts together with a body. *)
Definition accepts_body (st : N) : bool :=
  (200 <=? st)%N && (st <=? 599)%N && negb (null_body_status st).

(** [new Response(body, {status, statusText, headers})] for a [body] that
    is not [null]: a [RangeError] for a status outside 200 to 599, a
    [TypeError] for a null-body status. *)
Definition new_Response (body : string) (status : N) (statusText : string)
    (headers : gmap string string) : Promise Response :=
  if negb ((200 <=? status)%N && (status <=? 599)%N) then
    Rejected {| name := "RangeError"; message := "status" |}
  else if null_body_status status then
    Rejected {| name := "TypeError"; message := "null body status" |}
  else
    Resolved {| status := status;
                statusText := statusText;
                headers := headers;
                body := body |}.

Record Request : Type := {
  method : string;
  url : string;
  mode : string;
  req_headers : gmap string string
}.

Record URL : Type := { origin : string; pathname : string }.

(** What the worker's host decides. *)
Class Platform : Type := {
  (** [self.location.origin] *)
  location_origin : string;
  (** [new URL(s)]; [None] when it throws *)
  new_URL : string -> option URL;
  (** a URL given as a string, resolved against the worker's location *)
  resolve : string -> string;
  (** [fetch(request)] *)
  fetch : Request -> Promise (option Response);
  (** [response.json()] on the body; [None] when it rejects *)
  JSON_parse : string -> option JSON;
  (** [JSON.stringify(value)], as the body it makes *)
  JSON_stringify : JSON -> string;
  (** whether [cache.put(request, response)] is accepted *)
  cache_accepts : Request -> Response -> bool;
  (** [clients.matchAll({includeUncontrolled: true, type: 'window'})] *)
  window_clients : list string
}.

(** [new Request(s)] as the cache operations build it from a string. *)
Definition Request_of `{Platform} (s : string) : Request :=
  {| method := "GET"; url := resolve s; mode := "cors"; req_headers := ∅ |}.

(** ** Cache storage

    [caches] maps a generation name to a cache, in creation order; a
    cache maps the URL of a GET request to the stored response. *)

Module Caches.

Fixpoint find (gen : string) (s : list (string * gmap string Response))
  : option (gmap string Response) :=
  match s with
  | [] => None
  | (k, c) :: s' => if String.eqb k gen then Some c else find gen s'
  end.

(** [caches.keys()] *)
Definition keys (s : list (string * gmap string Response)) : list string :=
  List.map fst s.

(** [caches.open(gen)]: the cache is created when it is missing. *)
Definition open (gen : string) (s : list (string * gmap string Response))
  : list (string * gmap string Response) :=
  match find gen s with
  | Some _ => s
  | None => (s ++ [(gen, ∅)])%list
  end.

(** [caches.delete(gen)] *)
Definition delete (gen : string) (s : list (string * gmap string Response))
  : list (string * gmap string Response) :=
  List.filter (fun kc => negb (String.eqb (fst kc) gen)) s.

(** [cache.match(request)] on one cache: only GET requests match. *)
Definition match_one (c : gmap string Response) (request : Request)
  : option Response :=
  if String.eqb (method request) "GET" then c !! url request else None.

(** [cache.match(request)] on the cache called [gen]. *)
Definition match_in (gen : string) (request : Request)
    (s : list (string * gmap string Response)) : option Response :=
  match find gen s with
  | Some c => match_one c request
  | None => None
  end.

(** [caches.match(request)]: the first cache, in creation order, that
    holds an entry. *)
Fixpoint match_any (request : Request) (s : list (string * gmap string Response))
  : option Response :=
  match s with
  | [] => None
  | (_, c) :: s' =>
      match match_one c request with
      | Some r => Some r
      | None => match_any request s'
      end
  end.

Fixpoint store (gen : string) (key : string) (r : Response)
    (s : list (string * gmap string Response))
  : list (string * gmap string Response) :=
  match s with
  | [] => []
  | (k, c) :: s' =>
      if String.eqb k gen then (k, <[key := r]> c) :: s'
      else (k, c) :: store gen key r s'
  end.

(** [cache.put(request, response)] on the cache called [gen]: the
    platform accepts the write, or rejects it with a [TypeError]. *)
Definition put `{Platform} (gen : string) (request : Request) (r : Response)
    (s : list (string * gmap string Response))
  : Promise (list (string * gmap string Response)) :=
  if cache_accepts request r
  then Resolved (store gen (url request) r s)
  else Rejected {| name := "TypeError"; message := "Cache.put" |}.

(** [cache.addAll(urls)]: every asset is fetched; one failure, one
    answer that is not ok or one refused write rejects the whole and
    nothing is stored. *)
Fixpoint fetch_all `{Platform} (urls : list string)
  : Promise (list (Request * Response)) :=
  match urls with
  | [] => Resolved []
  | u :: rest =>
      let request := Request_of u in
      match fetch request with
      | Resolved (Some r) =>
          if ok r && cache_accepts request r then
            match fetch_all rest with
            | Resolved l => Resolved ((request, r) :: l)
            | Rejected e => Rejected e
            end
          else Rejected {| name := "TypeError"; message := "Cache.addAll" |}
      | Resolved None => Rejected {| name := "TypeError"; message := "Cache.addAll" |}
      | Rejected e => Rejected e
      end
  end.

Definition addAll `{Platform} (gen : string) (urls : list string)
    (s : list (string * gmap string Response))
  : Promise (list (string * gmap string Response)) :=
  match fetch_all urls with
  | Resolved l =>
      Resolved (fold_left (fun s qr => store gen (url (fst qr)) (snd qr) s) l s)
  | Rejected e => Rejected e
  end.

(** What [cache.addAll] needs of each asset. *)
Definition answered_ok `{Platform} (u : string) : Prop :=
  exists r,
    fetch (Request_of u) = Resolved (Some r) /\
    ok r = true /\ cache_accepts (Request_of u) r = true.

End Caches.

(** What the lifecycle events of a worker act on. *)
Record Worker : Type := {
  caches : list (string * gmap string Response);
  skipped_waiting : bool;
  claimed : bool
}.

(** [listGenerations()]: the names of the caches, as a set. *)
Definition generations (w : Worker) : gset string :=
  list_to_set (Caches.keys (caches w)).

(** What a fetch listener does with the event. *)
Inductive Dispatch : Type :=
| NotIntercepted
| RespondWith (p : Promise (option Response)).

(** ** The security variant: [src/service-worker.js] *)

Module ArminOS.

Section Worker.
Context `{Platform}.

Definition CACHE_NAME : string := "arminos-static-v1".
Definition ALLOWED_ORIGIN : string := location_origin.

(** The [install] listener. *)
Definition install (w : Worker) : Worker :=
  {| caches := Caches.open CACHE_NAME (caches w);
     skipped_waiting := true;
     claimed := claimed w |}.

(** The [activate] listener. *)
Definition activate (w : Worker) : Worker :=
  let keys := Caches.keys (caches w) in
  {| caches :=
       fold_left (fun s k => Caches.delete k s)
         (List.filter (fun k => negb (String.eqb k CACHE_NAME)) keys)
         (caches w);
     skipped_waiting := skipped_waiting w;
     claimed := true |}.

Definition isSameOrigin (request : Request) : bool :=
  match new_URL (url request) with
  | Some u => String.eqb (origin u) ALLOWED_ORIGIN
  | None => false
  end.

Definition SECURITY_HEADERS : list (string * string) :=
  [ ("Content-Security-Policy",
     "default-src 'self'; script-src 'self'; object-src 'none'; base-uri 'self'; frame-ancestors 'none';");
    ("X-Content-Type-Options", "nosniff");
    ("X-Frame-Options", "DENY");
    ("Referrer-Policy", "no-referrer");
    ("Strict-Transport-Security", "max-age=63072000; includeSubDomains; preload") ].

Definition addSecurityHeadersToResponse (response : option Response)
  : Promise (option Response) :=
  match response with
  | None => Resolved None
  | Some r =>
      let newHeaders := headers r in
      let newHeaders := Headers.set_all newHeaders SECURITY_HEADERS in
      let newHeaders := Headers.delete newHeaders "Server" in
      let body := body r in
      match new_Response body (status r) (statusText r) newHeaders with
      | Resolved r' => Resolved (Some r')
      | Rejected e => Rejected e
      end
  end.

(** The synthesized offline page of [handleNavigationRequest]. *)
Definition offline_page : Response :=
  {| status := 503;
     statusText := "Service Unavailable";
     headers := Headers.set_all ∅ (("Content-Type", "text/html") :: SECURITY_HEADERS);
     body := "<h1>Offline</h1>" |}.

(** What is thrown inside the [try], a failed hardening of the network
    answer included, is answered by the [catch]; what is thrown inside
    the [catch] rejects the promise. *)
Definition handleNavigationRequest (request : Request)
    (s : list (string * gmap string Response))
  : Promise (option Response) * list (string * gmap string Response) :=
  let fallback :=
    let s1 := Caches.open CACHE_NAME s in
    match Caches.match_in CACHE_NAME (Request_of "/offline.html") s1 with
    | Some cached => (addSecurityHeadersToResponse (Some cached), s1)
    | None => (Resolved (Some offline_page), s1)
    end in
  match fetch request with
  | Resolved (Some networkResponse) =>
      if (500 <=? status networkResponse)%N then fallback
      else
        match addSecurityHeadersToResponse (Some networkResponse) with
        | Resolved hardened => (Resolved hardened, s)
        | Rejected _ => fallback
        end
  | Resolved None => fallback
  | Rejected _ => fallback
  end.

(** The synthesized answer of the [catch] of [handleApiCalendar]. *)
Definition network_error_response : Response :=
  {| status := 502;
     statusText := "";
     headers :=
       Headers.set_all ∅ (("Content-Type", "application/json") :: SECURITY_HEADERS);
     body := JSON_stringify (JObject [("error", JString "Network error")]) |}.

(** On the JSON path [resp.json()] has resolved with a document: the
    answer has a body, so its status is none of the null-body statuses,
    and the constructor is written as record construction there. On the
    other path a failed hardening is thrown inside the [try] and answered
    by the [catch]. *)
Definition handleApiCalendar (request : Request) : Promise (option Response) :=
  match fetch request with
  | Resolved None => Resolved None
  | Resolved (Some resp) =>
      let contentType := Str.or_empty (Headers.get (headers resp) "Content-Type") in
      if Str.includes "application/json" contentType then
        match JSON_parse (body resp) with
        | Some json =>
            let sanitized := Sanitizer.sanitizeJsonStrings json in
            let headers := Headers.set_all (headers resp) SECURITY_HEADERS in
            Resolved (Some {| status := status resp;
                              statusText := statusText resp;
                              headers := headers;
                              body := JSON_stringify sanitized |})
        | None => Resolved (Some network_error_response)
        end
      else
        match addSecurityHeadersToResponse (Some resp) with
        | Resolved hardened => Resolved hardened
        | Rejected _ => Resolved (Some network_error_response)
        end
  | Rejected _ => Resolved (Some network_error_response)
  end.

(** The [catch] of [networkFirstWithSecurity]: the cached entry,
    hardened, or the error again; a failed hardening here rejects the
    promise. *)
Definition networkFirst_catch (request : Request) (err : Error)
    (s : list (string * gmap string Response))
  : Promise (option Response) * list (string * gmap string Response) :=
  match Caches.match_in CACHE_NAME request s with
  | Some cached => (addSecurityHeadersToResponse (Some cached), s)
  | None => (Rejected err, s)
  end.

(** A failed hardening inside the [try], of the network answer or of the
    cached entry, is thrown to the [catch]; the write of line 162 has
    been issued by then. *)
Definition networkFirstWithSecurity (request : Request)
    (s : list (string * gmap string Response))
  : Promise (option Response) * list (string * gmap string Response) :=
  let s0 := Caches.open CACHE_NAME s in
  match fetch request with
  | Resolved response =>
      if match response with Some r => ok r | None => false end then
        let s1 :=
          match response with
          | Some r =>
              match Caches.put CACHE_NAME request r s0 with
              | Resolved s' => s'
              | Rejected _ => s0
              end
          | None => s0
          end in
        match addSecurityHeadersToResponse response with
        | Resolved hardened => (Resolved hardened, s1)
        | Rejected err => networkFirst_catch request err s1
        end
      else
        match Caches.match_in CACHE_NAME request s0 with
        | Some cached =>
            match addSecurityHeadersToResponse (Some cached) with
            | Resolved hardened => (Resolved hardened, s0)
            | Rejected err => networkFirst_catch request err s0
            end
        | None => (Resolved response, s0)
        end
  | Rejected err => networkFirst_catch request err s0
  end.

(** The [fetch] listener. *)
Definition on_fetch (req : Request) (s : list (string * gmap string Response))
  : Dispatch * list (string * gmap string Response) :=
  if negb (String.eqb (method req) "GET") || negb (isSameOrigin req) then
    (NotIntercepted, s)
  else if String.eqb (mode req) "navigate"
          || Str.includes "text/html"
               (Str.or_empty (Headers.get (req_headers req) "accept")) then
    let '(p, s') := handleNavigationRequest req s in (RespondWith p, s')
  else
    let default :=
      let '(p, s') := networkFirstWithSecurity req s in (RespondWith p, s') in
    match new_URL (url req) with
    | Some u =>
        if Str.startsWith "/api/calendar" (pathname u)
        then (RespondWith (handleApiCalendar req), s)
        else default
    | None => default
    end.

(** Messages between the worker and its clients. *)
Inductive Message : Type :=
| CONFIRM_DELETE (projectId : option JSON)   (* [{type, payload: {projectId}}] *)
| SW_HEALTH_OK (version : string).           (* [{type, version}] *)

Inductive Effect : Type :=
| PostToClient (client : string) (m : Message)
| PostToSource (m : Message).

(** [event.source]: a client has a [url], other senders have none. *)
Record Source : Type := { source_url : option string }.

Record MessageEvent : Type := {
  data : option JSON;             (* [None]: [undefined] *)
  source : option Source
}.

(** [data.k] for the own properties of an object. *)
Fixpoint prop (entries : list (string * JSON)) (k : string) : option JSON :=
  match entries with
  | [] => None
  | (k', v) :: rest => if String.eqb k' k then Some v else prop rest k
  end.

(** [data.k] for a value that passed [typeof data === 'object']. *)
Definition field (d : JSON) (k : string) : option JSON :=
  match d with
  | JObject entries => prop entries k
  | _ => None
  end.

(** [data.type === t] *)
Definition type_is (d : JSON) (t : string) : bool :=
  match field d "type" with
  | Some (JString s) => String.eqb s t
  | _ => false
  end.

(** [!data || typeof data !== 'object'] *)
Definition not_an_object (d : option JSON) : bool :=
  match d with
  | Some (JObject _) | Some (JArray _) => false
  | _ => true
  end.

(** The body of the [try] of the [message] listener; [Rejected] when
    [new URL] throws. *)
Definition message_body (event : MessageEvent) : Promise (list Effect) :=
  match source event with
  | None => Resolved []
  | Some src =>
      match source_url src with
      | None => Resolved []
      | Some u =>
          if String.eqb u "" then Resolved []
          else
            match new_URL u with
            | None => Rejected {| name := "TypeError"; message := "Invalid URL" |}
            | Some parsed =>
                if negb (String.eqb (origin parsed) ALLOWED_ORIGIN) then Resolved []
                else if not_an_object (data event) then Resolved []
                else
                  match data event with
                  | None => Resolved []
                  | Some d =>
                      let relay :=
                        if type_is d "CONFIRM_DELETE"
                        then List.map
                               (fun client =>
                                  PostToClient client
                                    (CONFIRM_DELETE (field d "projectId")))
                               window_clients
                        else [] in
                      let reply :=
                        if type_is d "SW_HEALTH_CHECK"
                        then [PostToSource (SW_HEALTH_OK CACHE_NAME)]
                        else [] in
                      Resolved (reply ++ relay)%list
                  end
            end
      end
  end.

(** The [message] listener: whatever is thrown is swallowed. *)
Definition on_message (event : MessageEvent) : Promise (list Effect) :=
  match message_body event with
  | Resolved effects => Resolved effects
  | Rejected _ => Resolved []
  end.

End Worker.

End ArminOS.

(** ** The cache-first variant: the PlanOS worker *)

Module PlanOS.

Section Worker.
Context `{Platform}.

Definition CACHE_NAME : string := "planos-pwa-v1".

Definition ASSETS : list string :=
  [ "./";
    "./index.html";
    "./manifest.webmanifest";
    "./icons/icon-192.png";
    "./icons/icon-512.png";
    "./fonts/IRANSansX-Light.woff2";
    "./fonts/IRANSansX-Medium.woff2";
    "./fonts/IRANSansX-DemiBold.woff2";
    "./fonts/IRANSansX-Bold.woff2";
    "./fonts/IRANSansX-ExtraBold.woff2" ].

(** The [install] listener: the promise handed to [waitUntil]. *)
Definition install (w : Worker) : Promise unit * Worker :=
  let s1 := Caches.open CACHE_NAME (caches w) in
  match Caches.addAll CACHE_NAME ASSETS s1 with
  | Resolved s2 =>
      (Resolved tt,
       {| caches := s2; skipped_waiting := true; claimed := claimed w |})
  | Rejected e =>
      (Rejected e,
       {| caches := s1; skipped_waiting := skipped_waiting w; claimed := claimed w |})
  end.

(** The [activate] listener. *)
Definition activate (w : Worker) : Worker :=
  {| caches :=
       fold_left
         (fun s k => if String.eqb k CACHE_NAME then s else Caches.delete k s)
         (Caches.keys (caches w)) (caches w);
     skipped_waiting := skipped_waiting w;
     claimed := true |}.

(** The [fetch] listener. *)
Definition on_fetch (req : Request) (s : list (string * gmap string Response))
  : Dispatch * list (string * gmap string Response) :=
  if String.eqb (mode req) "navigate" then
    match Caches.match_any (Request_of "./index.html") s with
    | Some cached => (RespondWith (Resolved (Some cached)), s)
    | None => (RespondWith (fetch req), s)
    end
  else
    let cached := Caches.match_any req s in
    match cached with
    | Some _ => (RespondWith (Resolved cached), s)
    | None =>
        match fetch req with
        | Resolved res =>
            let s' :=
              match new_URL (url req) with
              | Some url =>
                  if String.eqb (method req) "GET"
                     && String.eqb (origin url) location_origin then
                    match res with
                    | Some copy =>
                        let s1 := Caches.open CACHE_NAME s in
                        match Caches.put CACHE_NAME req copy s1 with
                        | Resolved s2 => s2
                        | Rejected _ => s1
                        end
                    | None => s
                    end
                  else s
              | None => s
              end in
            (RespondWith (Resolved res), s')
        | Rejected _ => (RespondWith (Resolved cached), s)
        end
    end.

End Worker.

End PlanOS.

(** ** The specification's reading of routing and of control messages *)

Module Spec.

Section Reading.
Context `{Platform}.

(** Origin Classifier: navigation mode or [Accept: text/html]. *)
Definition isNavigation (req : Request) : bool :=
  String.eqb (mode req) "navigate"
  || Str.includes "text/html"
       (Str.or_empty (Headers.get (req_headers req) "accept")).

(** Origin Classifier: the path starts with the sensitive prefix. *)
Definition isSensitiveApiPath (prefix : string) (req : Request) : bool :=
  match new_URL (url req) with
  | Some u => Str.startsWith prefix (pathname u)
  | None => false
  end.

Inductive Route : Type :=
| PassThrough
| NavigationHandling
| SensitiveApiHandling
| DefaultHandling.

(** Routing precedence of the security variant, rules 1 to 3 in order;
    rule 4 is what remains. *)
Definition precedence : list ((Request -> bool) * Route) :=
  [ (fun req => negb (String.eqb (method req) "GET")
                || negb (ArminOS.isSameOrigin req), PassThrough);
    (isNavigation, NavigationHandling);
    (isSensitiveApiPath "/api/calendar", SensitiveApiHandling) ].

Fixpoint first_match (rules : list ((Request -> bool) * Route)) (req : Request)
  : Route :=
  match rules with
  | [] => DefaultHandling
  | (applies, route) :: rest =>
      if applies req then route else first_match rest req
  end.

Definition route (req : Request) : Route := first_match precedence req.

(** What each route does with the request and the cache storage. *)
Definition perform (r : Route) (req : Request)
    (s : list (string * gmap string Response))
  : Dispatch * list (string * gmap string Response) :=
  match r with
  | PassThrough => (NotIntercepted, s)
  | NavigationHandling =>
      (RespondWith (fst (ArminOS.handleNavigationRequest req s)),
       snd (ArminOS.handleNavigationRequest req s))
  | SensitiveApiHandling => (RespondWith (ArminOS.handleApiCalendar req), s)
  | DefaultHandling =>
      (RespondWith (fst (ArminOS.networkFirstWithSecurity req s)),
       snd (ArminOS.networkFirstWithSecurity req s))
  end.

(** The origin of the sender of a control message, when it has one. *)
Definition sender_origin (event : ArminOS.MessageEvent) : option string :=
  match ArminOS.source event with
  | Some src =>
      match ArminOS.source_url src with
      | Some u => option_map origin (new_URL u)
      | None => None
      end
  | None => None
  end.

(** The sender's origin differs from the worker's own. *)
Definition foreign (event : ArminOS.MessageEvent) : Prop :=
  sender_origin event <> Some ArminOS.ALLOWED_ORIGIN.

(** Control message protocol: the fields each message type carries. *)
Definition required_fields (type : string) : list string :=
  if String.eqb type "CONFIRM_DELETE" then ["type"; "projectId"] else ["type"].

(** Malformed: not an object, or a required field is missing. *)
Definition malformed (d : option JSON) : bool :=
  match d with
  | Some (JObject entries) =>
      match ArminOS.prop entries "type" with
      | Some (JString type) =>
          negb (forallb (fun k => bool_decide (is_Some (ArminOS.prop entries k)))
                        (required_fields type))
      | _ => true
      end
  | _ => true
  end.

(** A response carries every entry of the Security Header Set. *)
Definition hardened (r : Response) : Prop :=
  forall k v, In (k, v) ArminOS.SECURITY_HEADERS -> Headers.get (headers r) k = Some v.

End Reading.


(** A path into a JSON value: object fields and array positions. *)
Inductive Step : Type :=
| Field (k : string)
| Item (i : nat).

Fixpoint at_path (j : JSON) (path : list Step) : option JSON :=
  match path with
  | [] => Some j
  | Field k :: rest =>
      match j with
      | JObject entries =>
          match ArminOS.prop entries k with
          | Some v => at_path v rest
          | None => None
          end
      | _ => None
      end
  | Item i :: rest =>
      match j with
      | JArray items =>
          match nth_error items i with
          | Some v => at_path v rest
          | None => None
          end
      | _ => None
      end
  end.

(** An object as [JSON.parse] makes it: no two entries share a key. *)
Fixpoint well_formed (j : JSON) : Prop :=
  match j with
  | JArray items =>
      (fix all (l : list JSON) : Prop :=
         match l with [] => True | x :: l' => well_formed x /\ all l' end) items
  | JObject entries =>
      List.NoDup (List.map fst entries) /\
      (fix all (l : list (string * JSON)) : Prop :=
         match l with [] => True | kv :: l' => well_formed (snd kv) /\ all l' end) entries
  | _ => True
  end.

End Spec.

(** ** A concrete platform, to run the workers on examples *)

Module Scenario.

Definition here : string := "https://arminos.example".

Fixpoint drop (n : nat) (s : string) : string :=
  match n, s with
  | S n', String _ s' => drop n' s'
  | _, _ => s
  end.

(** The longest prefix free of [stop], and what follows it. *)
Fixpoint until (stop : ascii -> bool) (s : string) : string * string :=
  match s with
  | EmptyString => ("", "")
  | String c s' =>
      if stop c then ("", s)
      else let '(a, b) := until stop s' in (String c a, b)
  end.

(** The scheme of an absolute URL, and what follows [://]. *)
Fixpoint scheme_of (s : string) : option (string * string) :=
  match s with
  | EmptyString => None
  | String c s' =>
      if Str.startsWith "://" s then Some ("", drop 3 s)
      else match scheme_of s' with
           | Some (a, b) => Some (String c a, b)
           | None => None
           end
  end.

Definition is_one_of (l : list ascii) (c : ascii) : bool :=
  existsb (Ascii.eqb c) l.

(** A reader of absolute URLs [scheme://host/path?query#fragment]. *)
Definition read_URL (s : string) : option URL :=
  match scheme_of s with
  | None => None
  | Some (scheme, rest) =>
      let '(host, tail) := until (is_one_of ["/"; "?"; "#"]%char) rest in
      let '(path, _) := until (is_one_of ["?"; "#"]%char) tail in
      if String.eqb scheme "" || String.eqb host "" then None
      else Some {| origin := scheme ++ "://" ++ host;
                   pathname := if String.eqb path "" then "/" else path |}
  end.

(** Resolution against the worker's location, at the root of [here]. *)
Definition resolve_here (s : string) : string :=
  if Str.startsWith "./" s then here ++ "/" ++ drop 2 s
  else if Str.startsWith "/" s then here ++ s
  else s.

Definition hex_digit (n : nat) : ascii :=
  if (n <? 10)%nat then ascii_of_nat (48 + n) else ascii_of_nat (87 + n).

Definition escape (c : ascii) : string :=
  let n := nat_of_ascii c in
  if Ascii.eqb c Str.dquote then String "\" (String Str.dquote "")
  else if Ascii.eqb c "\" then "\\"
  else if (n =? 8)%nat then "\b"
  else if (n =? 9)%nat then "\t"
  else if (n =? 10)%nat then "\n"
  else if (n =? 12)%nat then "\f"
  else if (n =? 13)%nat then "\r"
  else if (n <? 32)%nat
       then "\u00" ++ String (hex_digit (n / 16)) (String (hex_digit (n mod 16)) "")
  else String c "".

Fixpoint escape_all (s : string) : string :=
  match s with
  | EmptyString => ""
  | String c s' => escape c ++ escape_all s'
  end.

Definition quote (s : string) : string :=
  String Str.dquote (escape_all s ++ String Str.dquote "").

(** A printer of JSON values, without white space. *)
Fixpoint print (j : JSON) : string :=
  match j with
  | JNull => "null"
  | JBool true => "true"
  | JBool false => "false"
  | JNumber repr => repr
  | JString s => quote s
  | JArray items =>
      "[" ++
      (fix go (l : list JSON) : string :=
         match l with
         | [] => ""
         | x :: l' =>
             match l' with
             | [] => print x
             | _ :: _ => print x ++ "," ++ go l'
             end
         end) items
      ++ "]"
  | JObject entries =>
      "{" ++
      (fix go (l : list (string * JSON)) : string :=
         match l with
         | [] => ""
         | kv :: l' =>
             match l' with
             | [] => quote (fst kv) ++ ":" ++ print (snd kv)
             | _ :: _ => quote (fst kv) ++ ":" ++ print (snd kv) ++ "," ++ go l'
             end
         end) entries
      ++ "}"
  end.

(** A reader that knows the documents of [docs] by their printed form
    and rejects every other body. *)
Definition read (docs : list JSON) (b : string) : option JSON :=
  List.find (fun j => String.eqb (print j) b) docs.

(** The platform of a scenario: its network, the JSON documents its
    reader knows, the cache writes it accepts and its open windows. *)
Definition platform (network : Request -> Promise (option Response))
    (docs : list JSON) (accepts : bool) (windows : list string) : Platform :=
  {| location_origin := here;
     new_URL := read_URL;
     resolve := resolve_here;
     fetch := network;
     JSON_parse := read docs;
     JSON_stringify := print;
     cache_accepts := fun _ _ => accepts;
     window_clients := windows |}.

Definition GET (u : string) : Request :=
  {| method := "GET"; url := u; mode := "cors"; req_headers := ∅ |}.

Definition offline : Request -> Promise (option Response) :=
  fun _ => Rejected {| name := "TypeError"; message := "Failed to fetch" |}.

Definition answers (r : Response) : Request -> Promise (option Response) :=
  fun _ => Resolved (Some r).

(** The calendar endpoint and a static asset of the application. *)
Definition events_request : Request := GET "https://arminos.example/api/calendar/events".
Definition logo_request : Request := GET "https://arminos.example/img/logo.svg".

Definition events_doc : JSON :=
  JObject [("title", JString "<script>alert(1)</script>hello")].

Definition events_answer : Response :=
  {| status := 200;
     statusText := "OK";
     headers := {[ "content-type" := "application/json" ]};
     body := print events_doc |}.

Definition logo_answer : Response :=
  {| status := 200;
     statusText := "OK";
     headers := {[ "content-type" := "image/svg+xml"; "server" := "nginx" ]};
     body := "<svg/>" |}.

Definition not_found : Response :=
  {| status := 404;
     statusText := "Not Found";
     headers := {[ "content-type" := "text/plain" ]};
     body := "no such file" |}.

Definition stale_events : Response :=
  {| status := 200;
     statusText := "OK";
     headers := {[ "content-type" := "application/json" ]};
     body := "[]" |}.

Definition form_post : Request :=
  {| method := "POST";
     url := "https://arminos.example/api/calendar/events";
     mode := "cors";
     req_headers := ∅ |}.

(** The storage right after [install] of the security variant. *)
Definition fresh : list (string * gmap string Response) :=
  [(ArminOS.CACHE_NAME, ∅)].

(** The current generation holding one entry. *)
Definition holding (request : Request) (r : Response)
  : list (string * gmap string Response) :=
  [(ArminOS.CACHE_NAME, {[ url request := r ]})].

(** An answer that claims to be JSON and is not. *)
Definition broken_answer : Response :=
  {| status := 200;
     statusText := "OK";
     headers := {[ "content-type" := "application/json; charset=utf-8";
                   "etag" := "v7" ]};
     body := "<html>maintenance</html>" |}.

(** The network answers the calendar request with a JSON document. *)
Definition calendar_online : Platform :=
  platform (answers events_answer) [events_doc] true [].

(** The network is down. *)
Definition all_offline : Platform := platform offline [] true [].

(** The network answers 404. *)
Definition missing_online : Platform := platform (answers not_found) [] true [].

(** The network answers the logo request. *)
Definition logo_online : Platform := platform (answers logo_answer) [] true [].

(** A worker that finds the generation of an older release. *)
Definition upgraded : Worker :=
  {| caches := [("arminos-static-v0", {[ url logo_request := logo_answer ]});
                ("planos-pwa-v0", ∅)];
     skipped_waiting := false;
     claimed := false |}.

(** A window of the application and two control messages from it. *)
Definition app_window : ArminOS.Source :=
  {| ArminOS.source_url := Some "https://arminos.example/app" |}.

Definition delete_without_project : ArminOS.MessageEvent :=
  {| ArminOS.data := Some (JObject [("type", JString "CONFIRM_DELETE")]);
     ArminOS.source := Some app_window |}.

Definition untyped_message : ArminOS.MessageEvent :=
  {| ArminOS.data := Some (JObject [("projectId", JNumber "7")]);
     ArminOS.source := Some app_window |}.

(** The network is down and one window is open. *)
Definition one_window : Platform :=
  platform offline [] true ["https://arminos.example/app"].

(** An answer without a body, and a page of the application. *)
Definition no_content : Response :=
  {| status := 204;
     statusText := "No Content";
     headers := {[ "server" := "nginx" ]};
     body := "" |}.

Definition agenda_request : Request := GET "https://arminos.example/agenda".

Definition agenda_page : Response :=
  {| status := 200;
     statusText := "OK";
     headers := {[ "content-type" := "text/plain" ]};
     body := "agenda of the week" |}.

(** The network answers 204, and the network answers the agenda. *)
Definition no_content_online : Platform := platform (answers no_content) [] true [].
Definition agenda_online : Platform := platform (answers agenda_page) [] true [].

(** A navigation, and a request to the calendar endpoint that accepts
    HTML. *)
Definition page_navigation : Request :=
  {| method := "GET";
     url := "https://arminos.example/agenda";
     mode := "navigate";
     req_headers := ∅ |}.

Definition html_events_request : Request :=
  {| method := "GET";
     url := "https://arminos.example/api/calendar/events";
     mode := "cors";
     req_headers := {[ "accept" := "text/html,application/json" ]} |}.



(** A document with a number, a script in a property name and a nested
    array. *)
Definition mixed_doc : JSON :=
  JObject [("count", JNumber "3");
           ("<script>x</script>", JBool true);
           ("items", JArray [JString "javascript:evil()"; JNull])].

Definition health_check : ArminOS.MessageEvent :=
  {| ArminOS.data := Some (JObject [("type", JString "SW_HEALTH_CHECK")]);
     ArminOS.source := Some app_window |}.

Definition delete_project : ArminOS.MessageEvent :=
  {| ArminOS.data :=
       Some (JObject [("type", JString "CONFIRM_DELETE");
                      ("projectId", JString "p-42")]);
     ArminOS.source := Some app_window |}.

(** Two windows are open. *)
Definition two_windows : Platform :=
  platform offline [] true
    ["https://arminos.example/app"; "https://arminos.example/settings"].

(** The network answers with a body that is not JSON. *)
Definition broken_online : Platform := platform (answers broken_answer) [] true [].

End Scenario.

(** * Properties *)

(** ** Headers *)

Section HeadersFacts.

Lemma set_all_lookup (obj : list (string * string)) (h : gmap string string) (k : string) :
  Headers.set_all h obj !! k = Headers.assigned obj k (h !! k).
Proof.
  revert h. induction obj as [|[k0 v0] obj IH]; intros h; [reflexivity|].
  unfold Headers.set_all in *. cbn [fold_left Headers.assigned fst snd].
  rewrite IH. f_equal. unfold Headers.set.
  destruct (String.eqb_spec (Str.toLowerCase k0) k) as [->|Hne].
  - apply lookup_insert_eq.
  - by apply lookup_insert_ne.
Qed.

Lemma assigned_other (obj : list (string * string)) (k : string) (acc : option string) :
  ~ In k (List.map (fun kv => Str.toLowerCase (fst kv)) obj) ->
  Headers.assigned obj k acc = acc.
Proof.
  revert acc. induction obj as [|[k0 v0] obj IH]; intros acc Hk; [reflexivity|].
  cbn [Headers.assigned fst snd]. cbn in Hk.
  destruct (String.eqb_spec (Str.toLowerCase k0) k) as [Heq|Hne].
  - exfalso. apply Hk. by left.
  - apply IH. intros Hin. apply Hk. by right.
Qed.

End HeadersFacts.

(** ** Cache storage *)

Section CachesFacts.

Lemma find_app (gen : string) (s t : list (string * gmap string Response)) :
  Caches.find gen (s ++ t)%list =
  match Caches.find gen s with
  | Some c => Some c
  | None => Caches.find gen t
  end.
Proof.
  induction s as [|[k c] s IH]; [reflexivity|].
  cbn. destruct (String.eqb k gen); [reflexivity | exact IH].
Qed.

Lemma find_open (gen : string) (s : list (string * gmap string Response)) :
  Caches.find gen (Caches.open gen s) =
  Some (default ∅ (Caches.find gen s)).
Proof.
  unfold Caches.open. destruct (Caches.find gen s) as [c|] eqn:E.
  - by rewrite E.
  - rewrite find_app, E. cbn. by rewrite String.eqb_refl.
Qed.

Lemma match_in_open (gen : string) (q : Request)
    (s : list (string * gmap string Response)) :
  Caches.match_in gen q (Caches.open gen s) = Caches.match_in gen q s.
Proof.
  unfold Caches.match_in. rewrite find_open.
  destruct (Caches.find gen s) as [c|]; [reflexivity|].
  cbn. unfold Caches.match_one.
  destruct (String.eqb (method q) "GET"); [apply lookup_empty | reflexivity].
Qed.

Lemma find_store (gen key : string) (r : Response)
    (s : list (string * gmap string Response)) :
  Caches.find gen (Caches.store gen key r s) =
  option_map (fun c => <[key := r]> c) (Caches.find gen s).
Proof.
  induction s as [|[k c] s IH]; [reflexivity|].
  cbn. destruct (String.eqb k gen) eqn:E; cbn; rewrite E; [reflexivity | exact IH].
Qed.

Lemma match_in_store (gen : string) (q : Request) (r : Response)
    (s : list (string * gmap string Response)) :
  method q = "GET" ->
  Caches.match_in gen q (Caches.store gen (url q) r (Caches.open gen s)) = Some r.
Proof.
  intros Hget. unfold Caches.match_in.
  rewrite find_store, find_open. cbn. unfold Caches.match_one.
  rewrite Hget. cbn. apply lookup_insert_eq.
Qed.

End CachesFacts.

(** ** The sanitizer *)

Section SanitizerFacts.
Import Sanitizer.

Lemma prop_obj_set (out : list (string * JSON)) (k' : string) (v' : JSON) (k : string) :
  ArminOS.prop (obj_set out k' v') k =
  if String.eqb k' k then Some v' else ArminOS.prop out k.
Proof.
  induction out as [|[k0 v0] out IH]; [reflexivity|].
  cbn [obj_set]. destruct (String.eqb_spec k0 k') as [->|Hne]; cbn [ArminOS.prop].
  - by destruct (String.eqb k' k).
  - rewrite IH. destruct (String.eqb_spec k0 k) as [->|]; [|reflexivity].
    by destruct (String.eqb_spec k' k); [congruence|].
Qed.

Lemma prop_assign (out : list (string * JSON)) (k' : string) (v' : JSON) (k : string) :
  k <> "__proto__" ->
  ArminOS.prop (assign out k' v') k =
  if String.eqb k' k then Some v' else ArminOS.prop out k.
Proof.
  intros Hk. unfold assign.
  destruct (String.eqb_spec k' "__proto__") as [->|]; [|apply prop_obj_set].
  by destruct (String.eqb_spec "__proto__" k); [congruence|].
Qed.

Lemma prop_fold (f : JSON -> JSON) (entries out : list (string * JSON)) (k : string) :
  k <> "__proto__" ->
  ArminOS.prop
    (fold_left (fun out kv => assign out (fst kv) (f (snd kv))) entries out) k
  = last_set f entries k (ArminOS.prop out k).
Proof.
  intros Hk. revert out.
  induction entries as [|[k0 v0] entries IH]; intros out; [reflexivity|].
  cbn [fold_left last_set fst snd]. by rewrite IH, prop_assign.
Qed.

Lemma last_set_fresh (f : JSON -> JSON) (entries : list (string * JSON)) (k : string)
    (acc : option JSON) :
  ~ In k (List.map fst entries) -> last_set f entries k acc = acc.
Proof.
  revert acc. induction entries as [|[k0 v0] entries IH]; intros acc Hk; [reflexivity|].
  cbn [last_set fst snd]. cbn in Hk.
  destruct (String.eqb_spec k0 k) as [->|]; [exfalso; apply Hk; by left|].
  apply IH. intros Hin. apply Hk. by right.
Qed.

Lemma last_set_unique (f : JSON -> JSON) (entries : list (string * JSON)) (k : string)
    (v : JSON) (acc : option JSON) :
  List.NoDup (List.map fst entries) ->
  ArminOS.prop entries k = Some v ->
  last_set f entries k acc = Some (f v).
Proof.
  revert acc. induction entries as [|[k0 v0] entries IH]; intros acc Hnd Hv;
    [discriminate|].
  cbn [last_set fst snd]. cbn in Hnd, Hv. inversion Hnd as [|? ? Hfresh Hnd']; subst.
  destruct (String.eqb_spec k0 k) as [->|].
  - inversion Hv; subst. by apply last_set_fresh.
  - by apply IH.
Qed.

Lemma well_formed_prop (entries : list (string * JSON)) (k : string) (v : JSON) :
  Spec.well_formed (JObject entries) ->
  ArminOS.prop entries k = Some v ->
  Spec.well_formed v.
Proof.
  intros [_ Hall]. induction entries as [|[k0 v0] entries IH]; [discriminate|].
  cbn in Hall. destruct Hall as [Hv0 Hall]. cbn [ArminOS.prop].
  destruct (String.eqb k0 k); [intros E; by inversion E; subst | by apply IH].
Qed.

Lemma well_formed_item (items : list JSON) (i : nat) (v : JSON) :
  Spec.well_formed (JArray items) ->
  nth_error items i = Some v ->
  Spec.well_formed v.
Proof.
  revert i. induction items as [|x items IH]; intros i Hall; [by destruct i|].
  cbn in Hall. destruct Hall as [Hx Hall].
  destruct i as [|i]; cbn; [intros E; by inversion E; subst | by apply IH].
Qed.


(** The matcher on inputs where priorities and the single pass show. *)
Example script_block_is_lazy :
  sanitizeString "x <script>a</script> y </script> z" = "x  y </script> z".
Proof. vm_compute. reflexivity. Qed.

Example replace_does_not_rescan :
  sanitizeString "<scr<script></script>ipt>alert(1)</script>"
  = "<script>alert(1)</script>".
Proof. vm_compute. reflexivity. Qed.

Example handler_needs_a_value :
  sanitizeString "a onload=" = "a onload=" /\
  sanitizeString "a ONLOAD = b>c" = "a >c".
Proof. split; vm_compute; reflexivity. Qed.


End SanitizerFacts.

(** ** Lifecycle: which generations survive activation *)

Section LifecycleFacts.

Lemma keys_delete (k0 k : string) (s : list (string * gmap string Response)) :
  In k (Caches.keys (Caches.delete k0 s)) <-> In k (Caches.keys s) /\ k <> k0.
Proof.
  unfold Caches.keys, Caches.delete. rewrite !in_map_iff. split.
  - intros [[k' c] [E Hin]]. cbn in E. subst k'.
    apply filter_In in Hin. destruct Hin as [Hin Hne]. cbn in Hne.
    split; [by exists (k, c)|].
    destruct (String.eqb_spec k k0); [discriminate | assumption].
  - intros [[[k' c] [E Hin]] Hne]. cbn in E. subst k'.
    exists (k, c). split; [reflexivity|]. apply filter_In. split; [exact Hin|].
    cbn. by destruct (String.eqb_spec k k0).
Qed.

(** Deleting, in the order of [l], every name that [keep] does not
    spare. *)
Lemma keys_delete_unless (keep : string -> bool) (l : list string)
    (s : list (string * gmap string Response)) (k : string) :
  In k (Caches.keys
          (fold_left (fun s k => if keep k then s else Caches.delete k s) l s))
  <-> In k (Caches.keys s) /\ (In k l -> keep k = true).
Proof.
  revert s. induction l as [|k0 l IH]; intros s; cbn [fold_left].
  - split; [intros Hin; split; [exact Hin | intros []] | by intros [Hin _]].
  - rewrite IH. destruct (keep k0) eqn:Hk0.
    + split; intros [Hin Hl]; (split; [exact Hin|]).
      * intros [->|Hin']; [exact Hk0 | by apply Hl].
      * intros Hin'. apply Hl. by right.
    + rewrite keys_delete. split.
      * intros [[Hin Hne] Hl]. split; [exact Hin|].
        intros [->|Hin']; [contradiction | by apply Hl].
      * intros [Hin Hl]. split; [split; [exact Hin|] | intros Hin'; apply Hl; by right].
        intros ->. specialize (Hl (or_introl eq_refl)). congruence.
Qed.

Lemma delete_filtered (keep : string -> bool) (l : list string)
    (s : list (string * gmap string Response)) :
  fold_left (fun s k => Caches.delete k s)
    (List.filter (fun k => negb (keep k)) l) s
  = fold_left (fun s k => if keep k then s else Caches.delete k s) l s.
Proof.
  revert s. induction l as [|k0 l IH]; intros s; [reflexivity|].
  cbn [List.filter fold_left]. destruct (keep k0); cbn [negb fold_left]; apply IH.
Qed.

Lemma keys_open (gen : string) (s : list (string * gmap string Response)) (k : string) :
  In k (Caches.keys (Caches.open gen s)) <-> In k (Caches.keys s) \/ k = gen.
Proof.
  unfold Caches.open. destruct (Caches.find gen s) as [c|] eqn:E.
  - split; [by left|]. intros [Hin| ->]; [exact Hin|].
    clear -E. induction s as [|[k0 c0] s IH]; [discriminate|].
    cbn in E |- *. destruct (String.eqb_spec k0 gen); [by left | right; by apply IH].
  - unfold Caches.keys. rewrite map_app, in_app_iff. cbn. intuition.
Qed.

Lemma keys_store (gen key : string) (r : Response)
    (s : list (string * gmap string Response)) :
  Caches.keys (Caches.store gen key r s) = Caches.keys s.
Proof.
  unfold Caches.keys. induction s as [|[k c] s IH]; [reflexivity|].
  cbn [Caches.store]. destruct (String.eqb k gen); cbn [List.map fst];
    [reflexivity | by rewrite IH].
Qed.

Lemma keys_addAll `{Platform} (gen : string) (urls : list string)
    (s s' : list (string * gmap string Response)) :
  Caches.addAll gen urls s = Resolved s' -> Caches.keys s' = Caches.keys s.
Proof.
  unfold Caches.addAll. destruct (Caches.fetch_all urls) as [l|e]; [|discriminate].
  intros E. inversion E; subst s'; clear E.
  revert s. induction l as [|qr l IH]; intros s; [reflexivity|].
  cbn [fold_left]. rewrite IH. apply keys_store.
Qed.

Lemma elem_of_generations (w : Worker) (k : string) :
  k ∈ generations w <-> In k (Caches.keys (caches w)).
Proof. unfold generations. by rewrite elem_of_list_to_set, list_elem_of_In. Qed.

Lemma arminos_activate_generations (w : Worker) (k : string) :
  k ∈ generations (ArminOS.activate w)
  <-> k ∈ generations w /\ k = ArminOS.CACHE_NAME.
Proof.
  rewrite !elem_of_generations. unfold ArminOS.activate. cbn [caches].
  rewrite (delete_filtered (fun k => String.eqb k ArminOS.CACHE_NAME)).
  rewrite keys_delete_unless. split.
  - intros [Hin Hk]. split; [exact Hin|]. by apply String.eqb_eq, Hk.
  - intros [Hin ->]. split; [exact Hin|]. intros _. apply String.eqb_refl.
Qed.

Lemma planos_activate_generations (w : Worker) (k : string) :
  k ∈ generations (PlanOS.activate w)
  <-> k ∈ generations w /\ k = PlanOS.CACHE_NAME.
Proof.
  rewrite !elem_of_generations. unfold PlanOS.activate. cbn [caches].
  rewrite (keys_delete_unless (fun k => String.eqb k PlanOS.CACHE_NAME)). split.
  - intros [Hin Hk]. split; [exact Hin|]. by apply String.eqb_eq, Hk.
  - intros [Hin ->]. split; [exact Hin|]. intros _. apply String.eqb_refl.
Qed.

(** C7. In both variants activation deletes every cache generation whose
    name differs from the current one: no other name is left, and once
    the worker has installed, which is what creates the current
    generation, the set of generations after activation is exactly the
    singleton of the current name. *)
Theorem activation_leaves_current_generation `{Platform} (w : Worker) :
  (generations (ArminOS.activate w) ⊆ {[ArminOS.CACHE_NAME]} /\
   generations (ArminOS.activate (ArminOS.install w)) = {[ArminOS.CACHE_NAME]}) /\
  (generations (PlanOS.activate w) ⊆ {[PlanOS.CACHE_NAME]} /\
   forall w1,
     PlanOS.install w = (Resolved tt, w1) ->
     generations (PlanOS.activate w1) = {[PlanOS.CACHE_NAME]}).
Proof.
  split; split.
  - intros k Hk. apply arminos_activate_generations in Hk.
    apply elem_of_singleton. tauto.
  - apply set_eq. intros k. rewrite arminos_activate_generations, elem_of_singleton.
    split; [by intros [_ ->]|]. intros ->. split; [|reflexivity].
    apply elem_of_generations. cbn [ArminOS.install caches].
    apply keys_open. by right.
  - intros k Hk. apply planos_activate_generations in Hk.
    apply elem_of_singleton. tauto.
  - intros w1 Hinst.
    apply set_eq. intros k. rewrite planos_activate_generations, elem_of_singleton.
    split; [by intros [_ ->]|]. intros ->. split; [|reflexivity].
    apply elem_of_generations. unfold PlanOS.install in Hinst.
    destruct (Caches.addAll _ _ _) as [s2|e] eqn:Hall; inversion Hinst; subst w1.
    cbn [caches]. rewrite (keys_addAll _ _ _ _ Hall). apply keys_open. by right.
Qed.

End LifecycleFacts.

(** ** The security variant *)

Section ArminOSFacts.
Context `{Platform}.
Import ArminOS.

Lemma hardened_set_all (h : gmap string string) (r : Response) :
  (forall k, headers r !! k = Headers.set_all h SECURITY_HEADERS !! k
             \/ (k = "server" /\ headers r !! k = None)) ->
  Spec.hardened r.
Proof.
  intros Hh k v Hin. unfold Headers.get.
  cbn in Hin.
  destruct Hin as [E|[E|[E|[E|[E|[]]]]]]; inversion E; subst k v; clear E;
    match goal with
    | |- headers r !! ?key = _ =>
        let key' := eval vm_compute in key in
        change key with key';
        destruct (Hh key') as [->|[Hs _]];
          [rewrite set_all_lookup; reflexivity | discriminate Hs]
    end.
Qed.

Lemma new_Response_accepted (b : string) (st : N) (txt : string)
    (h : gmap string string) :
  accepts_body st = true ->
  new_Response b st txt h
  = Resolved {| status := st; statusText := txt; headers := h; body := b |}.
Proof.
  unfold accepts_body, new_Response. intros E.
  apply andb_true_iff in E. destruct E as [E1 E2].
  apply negb_true_iff in E2. by rewrite E1, E2.
Qed.

Lemma new_Response_refused (b : string) (st : N) (txt : string)
    (h : gmap string string) :
  accepts_body st = false ->
  exists e, new_Response b st txt h = Rejected e.
Proof.
  unfold accepts_body, new_Response.
  destruct ((200 <=? st)%N && (st <=? 599)%N); cbn [negb andb]; [|by eexists].
  destruct (null_body_status st); [by eexists | discriminate].
Qed.

Lemma addSecurityHeaders_accepted (r : Response) :
  accepts_body (status r) = true ->
  addSecurityHeadersToResponse (Some r)
  = Resolved
      (Some {| status := status r;
               statusText := statusText r;
               headers :=
                 Headers.delete (Headers.set_all (headers r) SECURITY_HEADERS) "Server";
               body := body r |}).
Proof.
  intros E. unfold addSecurityHeadersToResponse.
  by rewrite new_Response_accepted.
Qed.

Lemma addSecurityHeaders_refused (r : Response) :
  accepts_body (status r) = false ->
  exists e, addSecurityHeadersToResponse (Some r) = Rejected e.
Proof.
  intros E. unfold addSecurityHeadersToResponse.
  destruct (new_Response_refused (body r) (status r) (statusText r)
              (Headers.delete (Headers.set_all (headers r) SECURITY_HEADERS) "Server") E)
    as [e He].
  exists e. by rewrite He.
Qed.

(** What a hardening that resolved has resolved with. *)
Lemma addSecurityHeaders_resolved (r : Response) (v : option Response) :
  addSecurityHeadersToResponse (Some r) = Resolved v ->
  accepts_body (status r) = true /\
  v = Some {| status := status r;
              statusText := statusText r;
              headers :=
                Headers.delete (Headers.set_all (headers r) SECURITY_HEADERS) "Server";
              body := body r |}.
Proof.
  intros E. destruct (accepts_body (status r)) eqn:Ha.
  - rewrite addSecurityHeaders_accepted in E by exact Ha. inversion E. by split.
  - destruct (addSecurityHeaders_refused r Ha) as [e He]. congruence.
Qed.

Lemma hardened_copy (r : Response) (st : N) (txt b : string) :
  Spec.hardened
    {| status := st;
       statusText := txt;
       headers := Headers.delete (Headers.set_all (headers r) SECURITY_HEADERS) "Server";
       body := b |}.
Proof.
  apply (hardened_set_all (headers r)). intros k. cbn [headers].
  unfold Headers.delete.
  change (Str.toLowerCase "Server") with "server".
  destruct (decide (k = "server")) as [->|Hne].
  - right. split; [reflexivity | apply lookup_delete_eq].
  - left. by apply lookup_delete_ne.
Qed.

Lemma addSecurityHeaders_hardened (r r' : Response) :
  addSecurityHeadersToResponse (Some r) = Resolved (Some r') -> Spec.hardened r'.
Proof.
  intros E. apply addSecurityHeaders_resolved in E. destruct E as [_ E].
  inversion E; subst r'. apply hardened_copy.
Qed.

(** C6, where the code departs from it. For a response whose status the
    [Response] constructor accepts together with a body (200 to 599,
    none of 204, 205 and 304) [addSecurityHeadersToResponse] resolves
    with a response of the same status, status text and body, in which
    every entry of the Security Header Set is set whatever the headers
    held before, the [Server] header is gone, and every other header
    reads as it did. For every other status, 204 among them, the
    constructor throws and the promise rejects. *)
Theorem addSecurityHeaders_frame (r : Response) :
  (accepts_body (status r) = true ->
   exists r',
     addSecurityHeadersToResponse (Some r) = Resolved (Some r') /\
     status r' = status r /\
     statusText r' = statusText r /\
     body r' = body r /\
     (forall k v, In (k, v) SECURITY_HEADERS -> Headers.get (headers r') k = Some v) /\
     Headers.get (headers r') "Server" = None /\
     (forall k,
         Str.toLowerCase k <> "server" ->
         ~ In (Str.toLowerCase k)
              (List.map (fun kv => Str.toLowerCase (fst kv)) SECURITY_HEADERS) ->
         Headers.get (headers r') k = Headers.get (headers r) k)) /\
  (accepts_body (status r) = false ->
   exists e, addSecurityHeadersToResponse (Some r) = Rejected e).
Proof.
  split; [|apply addSecurityHeaders_refused].
  intros Ha. eexists. split; [by apply addSecurityHeaders_accepted|].
  cbn [status statusText body headers]. repeat split.
  - exact (hardened_copy r (status r) (statusText r) (body r)).
  - unfold Headers.get, Headers.delete. apply lookup_delete_eq.
  - intros k Hs Hk. unfold Headers.get, Headers.delete.
    change (Str.toLowerCase "Server") with "server".
    rewrite lookup_delete_ne by congruence.
    rewrite set_all_lookup. by apply assigned_other.
Qed.

Lemma set_all_hardened (h : gmap string string) (r : Response) :
  headers r = Headers.set_all h SECURITY_HEADERS -> Spec.hardened r.
Proof.
  intros E. apply (hardened_set_all h). intros k. left. by rewrite E.
Qed.

Lemma network_error_response_hardened : Spec.hardened network_error_response.
Proof.
  apply (set_all_hardened (Headers.set ∅ "Content-Type" "application/json")).
  reflexivity.
Qed.

(** Whatever [handleApiCalendar] answers is hardened. *)
Lemma handleApiCalendar_hardened (request : Request) (r' : Response) :
  handleApiCalendar request = Resolved (Some r') -> Spec.hardened r'.
Proof.
  unfold handleApiCalendar.
  destruct (fetch request) as [[resp|]|e]; [| discriminate |].
  - destruct (Str.includes _ _).
    + destruct (JSON_parse (body resp)) as [json|]; intros E; inversion E; subst r'.
      * by apply (set_all_hardened (headers resp)).
      * apply network_error_response_hardened.
    + destruct (addSecurityHeadersToResponse (Some resp)) as [v|e] eqn:Hh;
        intros E; inversion E; subst.
      * by apply (addSecurityHeaders_hardened resp).
      * apply network_error_response_hardened.
  - intros E. inversion E. apply network_error_response_hardened.
Qed.

Lemma handleApiCalendar_answers (request : Request) (resp : Response) :
  fetch request = Resolved (Some resp) ->
  exists r', handleApiCalendar request = Resolved (Some r').
Proof.
  intros Hnet. unfold handleApiCalendar. rewrite Hnet.
  destruct (Str.includes _ _); [destruct (JSON_parse (body resp)); eauto|].
  destruct (accepts_body (status resp)) eqn:Ha.
  - rewrite addSecurityHeaders_accepted by exact Ha. eauto.
  - destruct (addSecurityHeaders_refused resp Ha) as [e ->]. eauto.
Qed.

Lemma on_fetch_route (req : Request) (s : list (string * gmap string Response)) :
  on_fetch req s = Spec.perform (Spec.route req) req s.
Proof.
  unfold on_fetch, Spec.route, Spec.precedence, Spec.first_match,
    Spec.isNavigation, Spec.isSensitiveApiPath.
  destruct (negb (String.eqb (method req) "GET") || negb (isSameOrigin req));
    [reflexivity|].
  destruct (String.eqb (mode req) "navigate" || Str.includes "text/html" _).
  { cbn [Spec.perform]. by destruct (handleNavigationRequest req s). }
  destruct (new_URL (url req)) as [u|];
    [destruct (Str.startsWith "/api/calendar" (pathname u)); [reflexivity|]|];
    cbn [Spec.perform]; by destruct (networkFirstWithSecurity req s).
Qed.

(** C3. The [fetch] listener of the security variant follows the routing
    precedence, first match winning: a request that is not GET or not
    same-origin is not intercepted and the cache storage is left as it
    was; then navigation or HTML-accepting requests go to the navigation
    handler; then paths under [/api/calendar] go to the sensitive-API
    handler; all others go to the default network-first handler. *)
Theorem fetch_follows_routing_precedence (req : Request)
    (s : list (string * gmap string Response)) :
  on_fetch req s = Spec.perform (Spec.route req) req s /\
  (method req <> "GET" \/ isSameOrigin req = false ->
   Spec.route req = Spec.PassThrough /\ on_fetch req s = (NotIntercepted, s)) /\
  (method req = "GET" -> isSameOrigin req = true ->
   Spec.route req =
   if Spec.isNavigation req then Spec.NavigationHandling
   else if Spec.isSensitiveApiPath "/api/calendar" req then Spec.SensitiveApiHandling
   else Spec.DefaultHandling).
Proof.
  split; [apply on_fetch_route|]. split.
  - intros Hpass.
    assert (Hr : Spec.route req = Spec.PassThrough).
    { unfold Spec.route, Spec.precedence, Spec.first_match.
      destruct Hpass as [Hm|Ho].
      - destruct (String.eqb_spec (method req) "GET"); [contradiction | reflexivity].
      - rewrite Ho. by rewrite orb_true_r. }
    split; [exact Hr|]. by rewrite on_fetch_route, Hr.
  - intros Hm Ho. unfold Spec.route, Spec.precedence, Spec.first_match.
    rewrite Hm, Ho. cbn [String.eqb Ascii.eqb Bool.eqb negb orb].
    destruct (Spec.isNavigation req); [reflexivity|].
    by destruct (Spec.isSensitiveApiPath "/api/calendar" req).
Qed.

(** What the [catch] of [handleNavigationRequest] answers, and when it
    runs: the fetch failed, resolved with nothing, answered with a status
    of 500 or more, or with one the hardening throws on. *)
Lemma navigation_fallback (request : Request)
    (s : list (string * gmap string Response)) :
  match fetch request with
  | Resolved (Some r) => (500 <= status r)%N \/ accepts_body (status r) = false
  | _ => True
  end ->
  handleNavigationRequest request s
  = (match Caches.match_in CACHE_NAME (Request_of "/offline.html") s with
     | Some cached => addSecurityHeadersToResponse (Some cached)
     | None => Resolved (Some offline_page)
     end,
     Caches.open CACHE_NAME s).
Proof.
  intros Hfails. unfold handleNavigationRequest. rewrite match_in_open.
  assert (Hgoal :
    match Caches.match_in CACHE_NAME (Request_of "/offline.html") s with
    | Some cached =>
        (addSecurityHeadersToResponse (Some cached), Caches.open CACHE_NAME s)
    | None => (Resolved (Some offline_page), Caches.open CACHE_NAME s)
    end
    = (match Caches.match_in CACHE_NAME (Request_of "/offline.html") s with
       | Some cached => addSecurityHeadersToResponse (Some cached)
       | None => Resolved (Some offline_page)
       end,
       Caches.open CACHE_NAME s)).
  { by destruct (Caches.match_in CACHE_NAME (Request_of "/offline.html") s). }
  destruct (fetch request) as [[r|]|e]; [|exact Hgoal..].
  destruct (500 <=? status r)%N eqn:Hge; [exact Hgoal|].
  destruct Hfails as [Hfails|Hfails]; [apply N.leb_le in Hfails; congruence|].
  destruct (addSecurityHeaders_refused r Hfails) as [e He]. by rewrite He.
Qed.

Lemma navigation_success (request : Request)
    (s : list (string * gmap string Response)) (r : Response) :
  fetch request = Resolved (Some r) ->
  (status r < 500)%N ->
  accepts_body (status r) = true ->
  handleNavigationRequest request s
  = (Resolved
       (Some {| status := status r;
                statusText := statusText r;
                headers :=
                  Headers.delete (Headers.set_all (headers r) SECURITY_HEADERS) "Server";
                body := body r |}),
     s).
Proof.
  intros Hnet Hstatus Ha. unfold handleNavigationRequest. rewrite Hnet.
  apply N.leb_gt in Hstatus. rewrite Hstatus.
  by rewrite addSecurityHeaders_accepted.
Qed.

(** Either the network answer is shown or the fallback runs. *)
Lemma navigation_cases (request : Request) :
  (exists r,
      fetch request = Resolved (Some r) /\
      (status r < 500)%N /\ accepts_body (status r) = true) \/
  match fetch request with
  | Resolved (Some r) => (500 <= status r)%N \/ accepts_body (status r) = false
  | _ => True
  end.
Proof.
  destruct (fetch request) as [[r|]|e]; [|by right..].
  destruct (N.lt_ge_cases (status r) 500); [|right; by left].
  destruct (accepts_body (status r)) eqn:Ha; [left; by exists r | right; by right].
Qed.

Lemma networkFirst_catch_cached (request : Request) (err : Error)
    (s : list (string * gmap string Response)) (cached : Response) :
  Caches.match_in CACHE_NAME request s = Some cached ->
  networkFirst_catch request err s
  = (addSecurityHeadersToResponse (Some cached), s).
Proof. intros Hc. unfold networkFirst_catch. by rewrite Hc. Qed.

(** C10, where the code departs from it. In the default handler a network
    answer whose status is not 2xx, a 4xx as much as a 5xx, is never
    written to the cache: the storage is only opened and every lookup in
    the current generation reads as before. Without a cached entry the
    network answer is returned as it is. A cached entry is returned with
    hardened headers, status and body as cached, when the [Response]
    constructor accepts its status; for a cached entry with status 204 or
    205, which the handler stores itself, the hardening throws and the
    promise rejects. *)
Theorem non_ok_answer_is_not_cached (request : Request)
    (s : list (string * gmap string Response)) (r : Response) :
  fetch request = Resolved (Some r) ->
  (status r < 200 \/ 299 < status r)%N ->
  snd (networkFirstWithSecurity request s) = Caches.open CACHE_NAME s /\
  (forall q, Caches.match_in CACHE_NAME q (snd (networkFirstWithSecurity request s))
             = Caches.match_in CACHE_NAME q s) /\
  match Caches.match_in CACHE_NAME request s with
  | Some cached =>
      if accepts_body (status cached)
      then exists r',
             fst (networkFirstWithSecurity request s) = Resolved (Some r') /\
             Spec.hardened r' /\ status r' = status cached /\ body r' = body cached
      else exists e, fst (networkFirstWithSecurity request s) = Rejected e
  | None => fst (networkFirstWithSecurity request s) = Resolved (Some r)
  end.
Proof.
  intros Hnet Hstatus.
  assert (Hok : ok r = false).
  { unfold ok. apply andb_false_iff.
    destruct Hstatus; [left; apply N.leb_gt | right; apply N.leb_gt]; assumption. }
  unfold networkFirstWithSecurity. rewrite Hnet, Hok, match_in_open.
  destruct (Caches.match_in CACHE_NAME request s) as [cached|] eqn:Hc.
  - destruct (accepts_body (status cached)) eqn:Ha.
    + rewrite addSecurityHeaders_accepted by exact Ha. cbn [fst snd].
      split; [reflexivity|]. split; [intros q; apply match_in_open|].
      eexists. split; [reflexivity|]. split; [apply hardened_copy | by split].
    + destruct (addSecurityHeaders_refused cached Ha) as [e He]. rewrite He.
      rewrite (networkFirst_catch_cached request e _ cached)
        by (by rewrite match_in_open).
      rewrite He. cbn [fst snd].
      split; [reflexivity|]. split; [intros q; apply match_in_open | by exists e].
  - cbn [fst snd].
    split; [reflexivity|]. split; [intros q; apply match_in_open | reflexivity].
Qed.

(** C2, as the code has it. In the default handler, when the network
    fetch fails and the current generation holds an entry for the
    request whose status the [Response] constructor accepts, the answer
    is that entry with hardened headers, status and body as cached. The
    other two handlers do not consult the entry of the request: the
    navigation handler answers a failed fetch from the cached
    [/offline.html] or with the synthesized offline page, the
    sensitive-API handler with the synthesized 502 response. *)
Theorem network_failure_falls_back (request : Request)
    (s : list (string * gmap string Response)) (e : Error) (cached : Response) :
  fetch request = Rejected e ->
  Caches.match_in CACHE_NAME request s = Some cached ->
  accepts_body (status cached) = true ->
  (exists r',
      networkFirstWithSecurity request s
      = (Resolved (Some r'), Caches.open CACHE_NAME s) /\
      Spec.hardened r' /\ status r' = status cached /\ body r' = body cached) /\
  fst (handleNavigationRequest request s)
  = match Caches.match_in CACHE_NAME (Request_of "/offline.html") s with
    | Some page => addSecurityHeadersToResponse (Some page)
    | None => Resolved (Some offline_page)
    end /\
  handleApiCalendar request = Resolved (Some network_error_response).
Proof.
  intros Hnet Hc Ha. split; [|split].
  - unfold networkFirstWithSecurity. rewrite Hnet.
    rewrite (networkFirst_catch_cached request e _ cached)
      by (by rewrite match_in_open).
    rewrite addSecurityHeaders_accepted by exact Ha.
    eexists. split; [reflexivity|]. split; [apply hardened_copy | by split].
  - rewrite navigation_fallback; [reflexivity | by rewrite Hnet].
  - unfold handleApiCalendar. by rewrite Hnet.
Qed.

(** C1, as the code has it. When the network answers a GET request with
    a 2xx status other than 204 and 205, the default handler returns a
    response that carries every entry of the Security Header Set and,
    the cache accepting the write, the current generation afterwards
    holds the network answer for that request. The sensitive-API handler
    returns a response that carries every entry of the Security Header
    Set, and a request routed to it leaves the cache storage as it
    was. *)
Theorem network_success_is_hardened (request : Request)
    (s : list (string * gmap string Response)) (r : Response) :
  fetch request = Resolved (Some r) ->
  (200 <= status r <= 299)%N ->
  null_body_status (status r) = false ->
  method request = "GET" ->
  (exists r',
      fst (networkFirstWithSecurity request s) = Resolved (Some r') /\
      Spec.hardened r' /\
      (cache_accepts request r = true ->
       Caches.match_in CACHE_NAME request (snd (networkFirstWithSecurity request s))
       = Some r)) /\
  (exists r',
      handleApiCalendar request = Resolved (Some r') /\ Spec.hardened r') /\
  (Spec.route request = Spec.SensitiveApiHandling ->
   snd (on_fetch request s) = s).
Proof.
  intros Hnet [Hlo Hhi] Hnull Hget.
  assert (Hok : ok r = true).
  { unfold ok. apply andb_true_iff. split; by apply N.leb_le. }
  assert (Ha : accepts_body (status r) = true).
  { unfold accepts_body. rewrite Hnull.
    apply andb_true_iff. split; [|reflexivity].
    apply andb_true_iff. split; apply N.leb_le; lia. }
  split.
  - unfold networkFirstWithSecurity. rewrite Hnet, Hok.
    rewrite addSecurityHeaders_accepted by exact Ha. cbn [fst snd].
    eexists. split; [reflexivity|]. split; [apply hardened_copy|].
    intros Hacc. unfold Caches.put. rewrite Hacc.
    by apply match_in_store.
  - split.
    + destruct (handleApiCalendar_answers request r Hnet) as [r' Hr'].
      exists r'. split; [exact Hr' | exact (handleApiCalendar_hardened request r' Hr')].
    + intros Hroute. by rewrite on_fetch_route, Hroute.
Qed.


(** X24. The sibling path of C5: an answer of the sensitive-API prefix
    that does not announce JSON keeps its status and body and gets
    hardened headers when the [Response] constructor accepts its status;
    when it does not, as for 204 and 304, the throw is caught and the
    answer is the synthesized 502 response. *)
Lemma non_json_answer_passes_through (request : Request) (resp : Response) :
  fetch request = Resolved (Some resp) ->
  Str.includes "application/json"
    (Str.or_empty (Headers.get (headers resp) "Content-Type")) = false ->
  (accepts_body (status resp) = true ->
   exists r',
     handleApiCalendar request = Resolved (Some r') /\
     Spec.hardened r' /\ status r' = status resp /\ body r' = body resp) /\
  (accepts_body (status resp) = false ->
   handleApiCalendar request = Resolved (Some network_error_response)).
Proof.
  intros Hnet Hct. unfold handleApiCalendar. rewrite Hnet, Hct. split; intros Ha.
  - rewrite addSecurityHeaders_accepted by exact Ha.
    eexists. split; [reflexivity|]. split; [apply hardened_copy | by split].
  - destruct (addSecurityHeaders_refused resp Ha) as [e He]. by rewrite He.
Qed.

(** X23. The sibling path of C9: without a cached entry the default
    handler of the security variant rejects with the very error of the
    network, and the cache storage is only opened. *)
Lemma default_handler_propagates_failure (request : Request)
    (s : list (string * gmap string Response)) (e : Error) :
  fetch request = Rejected e ->
  Caches.match_in CACHE_NAME request s = None ->
  networkFirstWithSecurity request s = (Rejected e, Caches.open CACHE_NAME s).
Proof.
  intros Hnet Hmiss. unfold networkFirstWithSecurity, networkFirst_catch.
  by rewrite Hnet, match_in_open, Hmiss.
Qed.

(** C5, where the code departs from it. When the answer of the
    sensitive-API prefix announces JSON and its body does not parse, the
    handler returns the synthesized 502 response of its [catch]: the
    Security Header Set is there, but status, headers and body of the
    network answer are gone. *)
Theorem unparsable_json_becomes_network_error (request : Request) (resp : Response) :
  fetch request = Resolved (Some resp) ->
  Str.includes "application/json"
    (Str.or_empty (Headers.get (headers resp) "Content-Type")) = true ->
  JSON_parse (body resp) = None ->
  handleApiCalendar request = Resolved (Some network_error_response) /\
  Spec.hardened network_error_response /\
  status network_error_response = 502%N /\
  body network_error_response
  = JSON_stringify (JObject [("error", JString "Network error")]).
Proof.
  intros Hnet Hct Hparse. unfold handleApiCalendar. rewrite Hnet, Hct, Hparse.
  split; [reflexivity|]. split; [apply network_error_response_hardened|]. by split.
Qed.

(** C8, as the code has it. A control message is dropped, with no
    broadcast, no reply and no error, when its sender's origin is not the
    worker's own (no sender, no URL, a URL that does not parse or another
    origin), when its data is not an object, or when its [type] is
    neither [CONFIRM_DELETE] nor [SW_HEALTH_CHECK] (a missing [type]
    included). No other field is looked at. *)
Theorem unrecognized_messages_are_dropped (event : MessageEvent) :
  Spec.foreign event \/
  not_an_object (data event) = true \/
  (forall d, data event = Some d ->
     type_is d "CONFIRM_DELETE" = false /\ type_is d "SW_HEALTH_CHECK" = false) ->
  on_message event = Resolved [].
Proof.
  intros Hdrop. unfold on_message, message_body.
  destruct (source event) as [src|] eqn:Hsrc; [|reflexivity].
  destruct (source_url src) as [u|] eqn:Hu; [|reflexivity].
  destruct (String.eqb u ""); [reflexivity|].
  destruct (new_URL u) as [parsed|] eqn:Hparsed; [|reflexivity].
  destruct (String.eqb_spec (origin parsed) ALLOWED_ORIGIN) as [Ho|Ho];
    [|reflexivity].
  cbn [negb]. destruct Hdrop as [Hforeign|[Hobj|Htype]].
  - exfalso. apply Hforeign. unfold Spec.sender_origin.
    by rewrite Hsrc, Hu, Hparsed, <- Ho.
  - by rewrite Hobj.
  - destruct (not_an_object (data event)); [reflexivity|].
    destruct (data event) as [d|]; [|reflexivity].
    destruct (Htype d eq_refl) as [-> ->]. reflexivity.
Qed.

End ArminOSFacts.

(** ** The cache-first variant *)

Section PlanOSFacts.
Context `{Platform}.
Import PlanOS.

(** C9, where the code departs from it. For a request that is not a
    navigation and has no cached entry, a failed network fetch does not
    reach the caller as an error: the promise handed to [respondWith]
    resolves with [undefined], and the cache storage is left as it
    was. *)
Theorem network_failure_resolves_undefined (req : Request)
    (s : list (string * gmap string Response)) (e : Error) :
  mode req <> "navigate" ->
  Caches.match_any req s = None ->
  fetch req = Rejected e ->
  on_fetch req s = (RespondWith (Resolved None), s) /\
  fst (on_fetch req s) <> RespondWith (Rejected e).
Proof.
  intros Hmode Hmiss Hnet.
  assert (E : on_fetch req s = (RespondWith (Resolved None), s)).
  { unfold on_fetch.
    destruct (String.eqb_spec (mode req) "navigate"); [contradiction|].
    by rewrite Hmiss, Hnet. }
  split; [exact E|]. rewrite E. discriminate.
Qed.

End PlanOSFacts.

(** ** The security variant on concrete requests *)

Section ArminOSExamples.
Import ArminOS Scenario.

(** C1 fails for the sensitive-API handler: a same-origin GET request to
    [/api/calendar/events] that the network answers with 200 is routed to
    [handleApiCalendar], and the current generation holds no entry for it
    afterwards. *)
Lemma api_answer_is_not_cached :
  method events_request = "GET" /\
  isSameOrigin (H := calendar_online) events_request = true /\
  Spec.route (H := calendar_online) events_request = Spec.SensitiveApiHandling /\
  fetch (Platform := calendar_online) events_request = Resolved (Some events_answer) /\
  status events_answer = 200%N /\
  exists r',
    on_fetch (H := calendar_online) events_request fresh
    = (RespondWith (Resolved (Some r')), fresh) /\
    body r' = print (JObject [("title", JString "hello")]) /\
    Caches.match_in CACHE_NAME events_request fresh = None.
Proof.
  repeat split; try reflexivity.
  eexists. split; [vm_compute; reflexivity|]. split; vm_compute; reflexivity.
Qed.

(** C2 fails for the navigation handler: the worker has cached the
    agenda when it was fetched as a resource; a navigation to the same
    URL while the network is down finds that entry for its request, yet
    it is answered with the synthesized offline page and not with the
    cached body. *)
Lemma navigation_failure_ignores_cached_page :
  let s1 := snd (on_fetch (H := agenda_online) agenda_request fresh) in
  Caches.match_in CACHE_NAME page_navigation s1 = Some agenda_page /\
  Spec.route (H := all_offline) page_navigation = Spec.NavigationHandling /\
  (exists e, fetch (Platform := all_offline) page_navigation = Rejected e) /\
  exists r',
    fst (on_fetch (H := all_offline) page_navigation s1)
    = RespondWith (Resolved (Some r')) /\
    status r' = 503%N /\
    body r' = "<h1>Offline</h1>" /\
    body r' <> body agenda_page.
Proof.
  cbv zeta. split; [vm_compute; reflexivity|]. split; [reflexivity|].
  split; [eexists; reflexivity|].
  exists offline_page. split; [vm_compute; reflexivity|].
  split; [reflexivity|]. split; [reflexivity|]. discriminate.
Qed.

(** C6 at a concrete input: the 204 answer of the network cannot be
    hardened. *)
Lemma addSecurityHeaders_frame_witness :
  exists e, addSecurityHeadersToResponse (Some no_content) = Rejected e.
Proof.
  apply (addSecurityHeaders_frame no_content). reflexivity.
Defined.

(** C10 at a concrete input: the worker has stored a 204 answer for the
    logo; when the network later answers 404 for it, the promise of the
    handler rejects. *)
Lemma non_ok_answer_is_not_cached_witness :
  exists e,
    fst (networkFirstWithSecurity (H := missing_online) logo_request
           (snd (networkFirstWithSecurity (H := no_content_online) logo_request fresh)))
    = Rejected e.
Proof.
  destruct (non_ok_answer_is_not_cached (H := missing_online) logo_request
              (snd (networkFirstWithSecurity (H := no_content_online) logo_request fresh))
              not_found eq_refl (or_intror eq_refl)) as (_ & _ & Hcached).
  exact Hcached.
Defined.

Lemma network_failure_falls_back_witness :
  exists r',
    networkFirstWithSecurity (H := all_offline) logo_request (holding logo_request logo_answer)
    = (Resolved (Some r'),
       Caches.open CACHE_NAME (holding logo_request logo_answer)) /\
    Spec.hardened r' /\ status r' = status logo_answer /\ body r' = body logo_answer.
Proof.
  apply (network_failure_falls_back (H := all_offline) logo_request
           (holding logo_request logo_answer)
           {| name := "TypeError"; message := "Failed to fetch" |} logo_answer);
    [reflexivity | vm_compute; reflexivity | reflexivity].
Defined.

Lemma network_success_is_hardened_witness :
  exists r',
    fst (networkFirstWithSecurity (H := logo_online) logo_request fresh)
    = Resolved (Some r') /\
    Spec.hardened r' /\
    (cache_accepts (Platform := logo_online) logo_request logo_answer = true ->
     Caches.match_in CACHE_NAME logo_request
       (snd (networkFirstWithSecurity (H := logo_online) logo_request fresh))
     = Some logo_answer).
Proof.
  apply (network_success_is_hardened (H := logo_online) logo_request fresh logo_answer);
    [reflexivity | cbn; lia | reflexivity | reflexivity].
Defined.


(** C5 at a concrete input: a 200 answer with content type
    [application/json; charset=utf-8], an [ETag] header and an HTML body
    comes back as a 502 whose body is the synthesized error, not the body
    of the answer. *)
Lemma unparsable_json_becomes_network_error_witness :
  handleApiCalendar (H := broken_online) events_request
  = Resolved (Some (network_error_response (H := broken_online))) /\
  status (network_error_response (H := broken_online)) = 502%N /\
  body (network_error_response (H := broken_online)) <> body broken_answer /\
  Headers.get (headers (network_error_response (H := broken_online))) "ETag" = None.
Proof.
  destruct (unparsable_json_becomes_network_error (H := broken_online)
              events_request broken_answer) as (Hr & _ & Hs & _);
    [reflexivity | vm_compute; reflexivity | reflexivity |].
  split; [exact Hr|]. split; [exact Hs|].
  split; [vm_compute; discriminate | vm_compute; reflexivity].
Defined.

Lemma fetch_follows_routing_precedence_witness :
  Spec.route (H := all_offline) form_post = Spec.PassThrough /\
  on_fetch (H := all_offline) form_post fresh = (NotIntercepted, fresh).
Proof.
  apply (fetch_follows_routing_precedence (H := all_offline) form_post fresh).
  left. discriminate.
Defined.

(** C8 fails for a missing field: a same-origin [CONFIRM_DELETE] without
    its [projectId] is malformed, and it is relayed to the open window
    all the same. *)
Lemma delete_without_project_is_relayed :
  Spec.sender_origin (H := one_window) delete_without_project
  = Some (ALLOWED_ORIGIN (H := one_window)) /\
  Spec.malformed (data delete_without_project) = true /\
  on_message (H := one_window) delete_without_project
  = Resolved [PostToClient "https://arminos.example/app" (CONFIRM_DELETE None)].
Proof. repeat split; vm_compute; reflexivity. Qed.

Lemma unrecognized_messages_are_dropped_witness :
  on_message (H := one_window) untyped_message = Resolved [].
Proof.
  apply (unrecognized_messages_are_dropped (H := one_window) untyped_message).
  right. right. intros d E. inversion E; subst d. split; reflexivity.
Defined.

End ArminOSExamples.

(** ** The cache-first variant on concrete requests *)

Section PlanOSExamples.
Import Scenario.

Lemma activation_leaves_current_generation_witness :
  generations (ArminOS.activate (ArminOS.install upgraded)) = {[ArminOS.CACHE_NAME]} /\
  generations
    (PlanOS.activate (snd (PlanOS.install (H := logo_online) upgraded)))
  = {[PlanOS.CACHE_NAME]}.
Proof.
  destruct (activation_leaves_current_generation (H := logo_online) upgraded)
    as [[_ Ha] [_ Hp]].
  split; [exact Ha|]. apply Hp. vm_compute. reflexivity.
Defined.

(** C9 at a concrete input: the network is down, nothing is cached, and
    the request for the logo is answered with [undefined]. *)
Lemma network_failure_resolves_undefined_witness :
  PlanOS.on_fetch (H := all_offline) logo_request [(PlanOS.CACHE_NAME, ∅)]
  = (RespondWith (Resolved None), [(PlanOS.CACHE_NAME, ∅)]).
Proof.
  apply (network_failure_resolves_undefined (H := all_offline) logo_request
           [(PlanOS.CACHE_NAME, ∅)]
           {| name := "TypeError"; message := "Failed to fetch" |});
    [discriminate | reflexivity | reflexivity].
Defined.

End PlanOSExamples.

(** * Further properties of the two workers *)

(** ** The matcher and the sanitizer *)

Section MatcherFacts.
Import Regex Sanitizer.

(** A successful run hands some suffix of its input to the continuation
    and returns what the continuation returns. *)
Lemma run_suffix (r : regex) (s : list ascii) (k : K) (rest : list ascii) :
  run r s k = Some rest ->
  exists s1, s1 `suffix_of` s /\ k s1 = Some rest.
Proof.
  revert s k rest.
  induction r as [c|p|r1 IH1 r2 IH2|r1 IH1 r2 IH2|g r1 IH1];
    intros s k rest Hrun; cbn [run] in Hrun.
  - destruct s as [|x s']; [discriminate|].
    destruct (Ascii.eqb _ _); [|discriminate].
    exists s'. split; [apply suffix_cons_r; reflexivity | exact Hrun].
  - destruct s as [|x s']; [discriminate|].
    destruct (p x); [|discriminate].
    exists s'. split; [apply suffix_cons_r; reflexivity | exact Hrun].
  - apply IH1 in Hrun. destruct Hrun as (s1 & Hs1 & Hk).
    apply IH2 in Hk. destruct Hk as (s2 & Hs2 & Hk).
    exists s2. split; [by etrans | exact Hk].
  - destruct (run r1 s k) as [rest'|] eqn:E.
    + inversion Hrun; subst rest'. by apply IH1.
    + by apply IH2.
  - match type of Hrun with
    | ?f (length s) s = _ => set (loop := f) in Hrun
    end.
    assert (Hloop : forall n s,
               loop n s =
               let more :=
                 match n with
                 | O => None
                 | S n' =>
                     run r1 s (fun s1 =>
                       if (length s1 <? length s)%nat then loop n' s1 else None)
                 end in
               if g
               then match more with Some rest => Some rest | None => k s end
               else match k s with Some rest => Some rest | None => more end).
    { intros [|n] s0; reflexivity. }
    clearbody loop. revert Hrun. generalize (length s). intros n. revert s rest.
    induction n as [|n IHn]; intros s rest Hrun; rewrite Hloop in Hrun;
      cbv zeta in Hrun.
    + destruct g.
      * exists s. split; [reflexivity | exact Hrun].
      * destruct (k s) as [rest'|] eqn:E; [|discriminate].
        exists s. split; [reflexivity | by rewrite E].
    + assert (Hmore : forall rest',
                 run r1 s (fun s1 =>
                   if (length s1 <? length s)%nat then loop n s1 else None)
                 = Some rest' ->
                 exists s1, s1 `suffix_of` s /\ k s1 = Some rest').
      { intros rest' Hm. apply IH1 in Hm. destruct Hm as (s1 & Hs1 & Hm).
        destruct (length s1 <? length s)%nat; [|discriminate].
        apply IHn in Hm. destruct Hm as (s2 & Hs2 & Hk).
        exists s2. split; [by etrans | exact Hk]. }
      destruct g.
      * destruct (run r1 s _) as [rest'|] eqn:E.
        -- inversion Hrun; subst rest'. by apply Hmore.
        -- exists s. split; [reflexivity | exact Hrun].
      * destruct (k s) as [rest'|] eqn:E.
        -- exists s. split; [reflexivity | by rewrite E].
        -- by apply Hmore.
Qed.

Lemma exec_suffix (r : regex) (s rest : list ascii) :
  exec r s = Some rest -> rest `suffix_of` s.
Proof.
  intros Hexec. apply run_suffix in Hexec. destruct Hexec as (s1 & Hs1 & E).
  by inversion E; subst.
Qed.

Lemma replace_loop_sublist (r : regex) (n : nat) (s : list ascii) :
  replace_loop n r [] s `sublist_of` s.
Proof.
  revert s. induction n as [|n IHn]; intros s; cbn [replace_loop]; [reflexivity|].
  destruct (exec r s) as [rest|] eqn:E.
  - destruct (length rest <? length s)%nat.
    + cbn [app]. destruct (exec_suffix r s rest E) as [pre ->].
      apply sublist_inserts_l, IHn.
    + destruct s as [|c s']; [reflexivity|]. cbn [app]. apply sublist_skip, IHn.
  - destruct s as [|c s']; [reflexivity|]. apply sublist_skip, IHn.
Qed.

Lemma replace_sublist (r : regex) (s : string) :
  list_ascii_of_string (replace r "" s) `sublist_of` list_ascii_of_string s.
Proof.
  unfold replace. rewrite list_ascii_of_string_of_list_ascii.
  apply replace_loop_sublist.
Qed.

Lemma length_list_ascii_of_string (s : string) :
  length (list_ascii_of_string s) = String.length s.
Proof. induction s as [|c s IH]; [reflexivity | cbn; by rewrite IH]. Qed.

(** X1. [sanitizeString] only deletes: what it returns is a subsequence
    of its input, so it is never longer and holds no character that the
    input did not hold. *)
Theorem sanitizeString_only_deletes (s : string) :
  list_ascii_of_string (sanitizeString s) `sublist_of` list_ascii_of_string s /\
  String.length (sanitizeString s) <= String.length s.
Proof.
  assert (Hsub : list_ascii_of_string (sanitizeString s)
                 `sublist_of` list_ascii_of_string s).
  { unfold sanitizeString.
    etrans; [apply replace_sublist|]. etrans; apply replace_sublist. }
  split; [exact Hsub|].
  rewrite <- !length_list_ascii_of_string. by apply sublist_length.
Qed.

(** Where no suffix of the input starts a match, nothing is replaced. *)
Lemma replace_loop_no_match (r : regex) (by_ : list ascii) (n : nat) (s : list ascii) :
  (forall s', s' `suffix_of` s -> exec r s' = None) ->
  replace_loop n r by_ s = s.
Proof.
  revert s. induction n as [|n IHn]; intros s Hnone; cbn [replace_loop]; [reflexivity|].
  rewrite (Hnone s) by reflexivity.
  destruct s as [|c s']; [reflexivity|]. f_equal. apply IHn.
  intros s'' Hs. apply Hnone. by apply suffix_cons_r.
Qed.

Lemma replace_no_match (r : regex) (by_ s : string) :
  (forall s', s' `suffix_of` list_ascii_of_string s -> exec r s' = None) ->
  replace r by_ s = s.
Proof.
  intros Hnone. unfold replace. rewrite replace_loop_no_match by exact Hnone.
  apply string_of_list_ascii_of_string.
Qed.

Lemma run_Lit (w : string) (k' : regex) (s : list ascii) (k : K) (rest : list ascii) :
  run (Lit w k') s k = Some rest ->
  exists s1, s1 `suffix_of` s /\ run k' s1 k = Some rest.
Proof.
  revert s. induction w as [|c w IH]; intros s Hrun; cbn [Lit] in Hrun.
  - exists s. split; [reflexivity | exact Hrun].
  - cbn [run] in Hrun. destruct s as [|x s']; [discriminate|].
    destruct (Ascii.eqb _ _); [|discriminate].
    apply IH in Hrun. destruct Hrun as (s1 & Hs1 & Hk).
    exists s1. split; [by apply suffix_cons_r | exact Hk].
Qed.

Lemma run_Seq (r1 r2 : regex) (s : list ascii) (k : K) (rest : list ascii) :
  run (Seq r1 r2) s k = Some rest ->
  exists s1, s1 `suffix_of` s /\ run r2 s1 k = Some rest.
Proof. intros Hrun. exact (run_suffix r1 s _ rest Hrun). Qed.

Lemma lower_char_upper (x : ascii) :
  Str.is_upper x = true -> Str.is_lower (Str.lower_char x) = true.
Proof.
  destruct x as [[] [] [] [] [] [] [] []]; vm_compute; intros E;
    first [reflexivity | discriminate E].
Qed.

(** A literal that is no letter is matched by itself only. *)
Lemma run_Chr_plain (c : ascii) (s : list ascii) (k : K) (rest : list ascii) :
  Str.is_upper c = false -> Str.is_lower c = false ->
  run (Chr c) s k = Some rest -> In c s.
Proof.
  intros Hu Hl Hrun. cbn [run] in Hrun. destruct s as [|x s']; [discriminate|].
  destruct (Ascii.eqb_spec (Str.lower_char c) (Str.lower_char x)) as [E|];
    [|discriminate].
  left. unfold Str.lower_char in E. rewrite Hu in E.
  destruct (Str.is_upper x) eqn:Hx; [|by symmetry].
  pose proof (lower_char_upper x Hx) as Hx'. unfold Str.lower_char in Hx'.
  rewrite Hx, <- E in Hx'. congruence.
Qed.

Lemma In_suffix (c : ascii) (s1 s : list ascii) :
  s1 `suffix_of` s -> In c s1 -> In c s.
Proof. intros [pre ->] Hin. apply in_or_app. by right. Qed.

Lemma script_block_needs_lt (s : list ascii) :
  ~ In "<"%char s -> exec script_block s = None.
Proof.
  intros Habs. destruct (exec script_block s) as [rest|] eqn:E; [|reflexivity].
  exfalso. apply Habs. unfold exec, script_block in E.
  exact (run_Chr_plain "<" s _ rest eq_refl eq_refl E).
Qed.

Lemma event_handler_needs_eq (s : list ascii) :
  ~ In "="%char s -> exec event_handler s = None.
Proof.
  intros Habs. destruct (exec event_handler s) as [rest|] eqn:E; [|reflexivity].
  exfalso. apply Habs. unfold exec, event_handler in E.
  apply run_Lit in E. destruct E as (s1 & Hs1 & E).
  apply run_Seq in E. destruct E as (s2 & Hs2 & E).
  apply run_Seq in E. destruct E as (s3 & Hs3 & E).
  apply (In_suffix _ s1); [exact Hs1|]. apply (In_suffix _ s2); [exact Hs2|].
  apply (In_suffix _ s3); [exact Hs3|].
  exact (run_Chr_plain "=" s3 _ rest eq_refl eq_refl E).
Qed.

Lemma javascript_scheme_needs_colon (s : list ascii) :
  ~ In ":"%char s -> exec javascript_scheme s = None.
Proof.
  intros Habs. destruct (exec javascript_scheme s) as [rest|] eqn:E; [|reflexivity].
  exfalso. apply Habs. unfold exec, javascript_scheme in E.
  apply run_Lit in E. destruct E as (s1 & Hs1 & E).
  apply (In_suffix _ s1); [exact Hs1|].
  exact (run_Chr_plain ":" s1 _ rest eq_refl eq_refl E).
Qed.

(** X2. A string that holds none of the characters [<], [=] and [:] is
    returned as it is: each of the three patterns needs one of them. *)
Theorem sanitizeString_plain_text (s : string) :
  ~ In "<"%char (list_ascii_of_string s) ->
  ~ In "="%char (list_ascii_of_string s) ->
  ~ In ":"%char (list_ascii_of_string s) ->
  sanitizeString s = s.
Proof.
  intros Hlt Heq Hcolon. unfold sanitizeString.
  rewrite (replace_no_match script_block "" s).
  2:{ intros s' Hs. apply script_block_needs_lt.
      intros Hin. apply Hlt. by apply (In_suffix _ s'). }
  rewrite (replace_no_match event_handler "" s).
  2:{ intros s' Hs. apply event_handler_needs_eq.
      intros Hin. apply Heq. by apply (In_suffix _ s'). }
  apply replace_no_match.
  intros s' Hs. apply javascript_scheme_needs_colon.
  intros Hin. apply Hcolon. by apply (In_suffix _ s').
Qed.

End MatcherFacts.

(** ** [sanitizeJsonStrings] and the shape of a document *)

Section JsonFacts.
Import Sanitizer.

Lemma prop_None (entries : list (string * JSON)) (k : string) :
  ArminOS.prop entries k = None -> ~ In k (List.map fst entries).
Proof.
  induction entries as [|[k0 v0] entries IH]; intros Hnone; [intros []|].
  cbn in Hnone |- *. destruct (String.eqb_spec k0 k) as [|Hne]; [discriminate|].
  intros [E|Hin]; [contradiction | by apply IH].
Qed.

(** X3. [sanitizeJsonStrings] keeps the shape of a document: at every
    path that does not go through a property called [__proto__], the
    result holds a value exactly where the input holds one, and that
    value is the sanitized one; so [null], booleans and numbers are where
    they were and read as they did. *)
Theorem sanitizeJsonStrings_keeps_shape (j : JSON) (path : list Spec.Step) :
  Spec.well_formed j ->
  ~ In (Spec.Field "__proto__") path ->
  Spec.at_path (sanitizeJsonStrings j) path
  = option_map sanitizeJsonStrings (Spec.at_path j path) /\
  (forall v,
      Spec.at_path j path = Some v ->
      match v with JNull | JBool _ | JNumber _ => True | _ => False end ->
      Spec.at_path (sanitizeJsonStrings j) path = Some v).
Proof.
  intros Hwf Hproto.
  assert (Hshape : Spec.at_path (sanitizeJsonStrings j) path
                   = option_map sanitizeJsonStrings (Spec.at_path j path)).
  { revert j Hwf. induction path as [|[k|i] path IH]; intros j Hwf; [reflexivity| |].
    - assert (Hk : k <> "__proto__") by (intros ->; apply Hproto; by left).
      assert (Hrest : ~ In (Spec.Field "__proto__") path)
        by (intros Hin; apply Hproto; by right).
      destruct j as [| | | |items|entries]; try reflexivity.
      cbn [Spec.at_path sanitizeJsonStrings]. rewrite prop_fold by exact Hk.
      cbn [ArminOS.prop].
      destruct (ArminOS.prop entries k) as [v|] eqn:Hv.
      + rewrite (last_set_unique _ entries k v); [|exact (proj1 Hwf)|exact Hv].
        apply IH; [exact Hrest | exact (well_formed_prop entries k v Hwf Hv)].
      + rewrite last_set_fresh by (by apply prop_None). reflexivity.
    - assert (Hrest : ~ In (Spec.Field "__proto__") path)
        by (intros Hin; apply Hproto; by right).
      destruct j as [| | | |items|entries]; try reflexivity.
      cbn [Spec.at_path sanitizeJsonStrings]. rewrite nth_error_map.
      destruct (nth_error items i) as [v|] eqn:Hv; [|reflexivity].
      cbn [option_map].
      apply IH; [exact Hrest | exact (well_formed_item items i v Hwf Hv)]. }
  split; [exact Hshape|].
  intros v Hv Hscalar. rewrite Hshape, Hv. by destruct v.
Qed.

Lemma prop_assign_proto (f : JSON -> JSON) (entries out : list (string * JSON)) :
  ArminOS.prop out "__proto__" = None ->
  ArminOS.prop
    (fold_left (fun out kv => assign out (fst kv) (f (snd kv))) entries out)
    "__proto__" = None.
Proof.
  revert out. induction entries as [|[k0 v0] entries IH]; intros out Hout; [exact Hout|].
  cbn [fold_left fst snd]. apply IH. unfold assign.
  destruct (String.eqb_spec k0 "__proto__") as [|Hne]; [exact Hout|].
  rewrite prop_obj_set. by destruct (String.eqb_spec k0 "__proto__").
Qed.

(** X4. A property called [__proto__] does not reach the result: whatever
    the object holds under that name, sanitized or not, is dropped. *)
Theorem sanitizeJsonStrings_drops_proto (entries : list (string * JSON)) :
  Spec.at_path (sanitizeJsonStrings (JObject entries)) [Spec.Field "__proto__"] = None.
Proof.
  cbn [Spec.at_path sanitizeJsonStrings].
  by rewrite prop_assign_proto.
Qed.

Lemma obj_set_fresh (out : list (string * JSON)) (k : string) (v : JSON) :
  ~ In k (List.map fst out) -> obj_set out k v = (out ++ [(k, v)])%list.
Proof.
  induction out as [|[k0 v0] out IH]; intros Hfresh; [reflexivity|].
  cbn in Hfresh |- *. destruct (String.eqb_spec k0 k) as [E|Hne].
  - exfalso. apply Hfresh. by left.
  - f_equal. apply IH. intros Hin. apply Hfresh. by right.
Qed.

Lemma fold_assign_fresh (f : JSON -> JSON) (entries out : list (string * JSON)) :
  List.NoDup (List.map fst entries) ->
  ~ In "__proto__" (List.map fst entries) ->
  (forall k, In k (List.map fst entries) -> ~ In k (List.map fst out)) ->
  fold_left (fun out kv => assign out (fst kv) (f (snd kv))) entries out
  = (out ++ List.map (fun kv => (fst kv, f (snd kv))) entries)%list.
Proof.
  revert out. induction entries as [|[k0 v0] entries IH]; intros out Hnd Hproto Hdisj.
  - cbn. by rewrite app_nil_r.
  - cbn [fold_left List.map fst snd]. cbn in Hnd, Hproto.
    inversion Hnd as [|? ? Hk0 Hnd']; subst.
    unfold assign at 2.
    destruct (String.eqb_spec k0 "__proto__") as [E|_];
      [exfalso; apply Hproto; by left|].
    rewrite obj_set_fresh by (apply Hdisj; by left).
    rewrite IH.
    + by rewrite <- app_assoc.
    + exact Hnd'.
    + intros Hin. apply Hproto. by right.
    + intros k Hin Hout. rewrite map_app, in_app_iff in Hout.
      destruct Hout as [Hout|[E|[]]].
      * apply (Hdisj k); [by right | exact Hout].
      * cbn in E. subst k. contradiction.
Qed.

(** X5. On an object with distinct property names, none of them
    [__proto__], the result has the same names in the same order and
    each value sanitized: the names themselves are never sanitized. *)
Theorem sanitizeJsonStrings_keeps_names (entries : list (string * JSON)) :
  List.NoDup (List.map fst entries) ->
  ~ In "__proto__" (List.map fst entries) ->
  sanitizeJsonStrings (JObject entries)
  = JObject (List.map (fun kv => (fst kv, sanitizeJsonStrings (snd kv))) entries).
Proof.
  intros Hnd Hproto. cbn [sanitizeJsonStrings]. f_equal.
  rewrite fold_assign_fresh; [reflexivity | exact Hnd | exact Hproto |].
  intros k _ [].
Qed.

End JsonFacts.

(** ** More on the cache storage *)

Section CachesFrame.

Lemma match_in_open_any (gen c : string) (q : Request)
    (s : list (string * gmap string Response)) :
  Caches.match_in gen q (Caches.open c s) = Caches.match_in gen q s.
Proof.
  unfold Caches.match_in, Caches.open.
  destruct (Caches.find c s) as [c0|] eqn:E; [reflexivity|].
  rewrite find_app. destruct (Caches.find gen s) as [c1|]; [reflexivity|].
  cbn. destruct (String.eqb c gen); [|reflexivity].
  unfold Caches.match_one.
  destruct (String.eqb (method q) "GET"); [apply lookup_empty | reflexivity].
Qed.

Lemma find_store_ne (gen c key : string) (r : Response)
    (s : list (string * gmap string Response)) :
  gen <> c -> Caches.find gen (Caches.store c key r s) = Caches.find gen s.
Proof.
  intros Hne. induction s as [|[k c0] s IH]; [reflexivity|].
  cbn [Caches.store]. destruct (String.eqb_spec k c) as [->|Hk]; cbn [Caches.find].
  - by destruct (String.eqb_spec c gen); [congruence|].
  - by rewrite IH.
Qed.

Lemma match_in_store_frame (gen c key : string) (r : Response) (q : Request)
    (s : list (string * gmap string Response)) :
  gen <> c \/ key <> url q ->
  Caches.match_in gen q (Caches.store c key r s) = Caches.match_in gen q s.
Proof.
  intros Hframe. unfold Caches.match_in.
  destruct (String.eqb_spec gen c) as [->|Hne]; [|by rewrite find_store_ne].
  destruct Hframe as [|Hkey]; [contradiction|].
  rewrite find_store. destruct (Caches.find c s) as [c0|]; [|reflexivity].
  cbn [option_map]. unfold Caches.match_one.
  destruct (String.eqb (method q) "GET"); [|reflexivity].
  by apply lookup_insert_ne.
Qed.

End CachesFrame.

(** ** More on the security variant *)

Section ArminOSMore.
Context `{Platform}.
Import ArminOS.

Lemma offline_page_hardened : Spec.hardened offline_page.
Proof.
  apply (set_all_hardened (Headers.set ∅ "Content-Type" "text/html")).
  reflexivity.
Qed.

Lemma navigation_frame (request : Request)
    (s : list (string * gmap string Response)) (gen : string) (q : Request) :
  Caches.match_in gen q (snd (handleNavigationRequest request s))
  = Caches.match_in gen q s.
Proof.
  destruct (navigation_cases request) as [(r & Hnet & Hlt & Ha)|Hfails].
  - by rewrite (navigation_success request s r Hnet Hlt Ha).
  - rewrite (navigation_fallback request s Hfails). apply match_in_open_any.
Qed.

(** X6. Whatever [handleNavigationRequest] resolves with is a response
    that carries the Security Header Set, never nothing; its promise
    rejects only when the cached [/offline.html] has a status the
    [Response] constructor refuses; and no lookup in any generation
    reads differently afterwards. *)
Theorem navigation_answers_are_hardened (request : Request)
    (s : list (string * gmap string Response)) :
  (forall v,
      fst (handleNavigationRequest request s) = Resolved v ->
      exists r', v = Some r' /\ Spec.hardened r') /\
  (forall e,
      fst (handleNavigationRequest request s) = Rejected e ->
      exists cached,
        Caches.match_in CACHE_NAME (Request_of "/offline.html") s = Some cached /\
        accepts_body (status cached) = false) /\
  (forall gen q,
      Caches.match_in gen q (snd (handleNavigationRequest request s))
      = Caches.match_in gen q s).
Proof.
  split; [|split; [|intros gen q; apply navigation_frame]].
  - intros v. destruct (navigation_cases request) as [(r & Hnet & Hlt & Ha)|Hfails].
    + rewrite (navigation_success request s r Hnet Hlt Ha). cbn [fst].
      intros E. inversion E. eexists. split; [reflexivity | apply hardened_copy].
    + rewrite (navigation_fallback request s Hfails). cbn [fst].
      destruct (Caches.match_in CACHE_NAME (Request_of "/offline.html") s) as [cached|].
      * intros E. apply addSecurityHeaders_resolved in E. destruct E as [_ ->].
        eexists. split; [reflexivity | apply hardened_copy].
      * intros E. inversion E. eexists. split; [reflexivity | apply offline_page_hardened].
  - intros e. destruct (navigation_cases request) as [(r & Hnet & Hlt & Ha)|Hfails].
    + rewrite (navigation_success request s r Hnet Hlt Ha). discriminate.
    + rewrite (navigation_fallback request s Hfails). cbn [fst].
      destruct (Caches.match_in CACHE_NAME (Request_of "/offline.html") s)
        as [cached|]; [|discriminate].
      intros E. exists cached. split; [reflexivity|].
      destruct (accepts_body (status cached)) eqn:Ha; [|reflexivity].
      rewrite addSecurityHeaders_accepted in E by exact Ha. discriminate.
Qed.

(** X7. When the network fails, answers nothing, answers with a status
    of 500 or more or with a status the hardening throws on, a
    navigation is answered from the cached [/offline.html] of the current
    generation, hardened, and without one by the synthesized page:
    status 503, [text/html], body [<h1>Offline</h1>]. A cached
    [/offline.html] whose status the [Response] constructor refuses
    makes the promise reject. *)
Theorem navigation_falls_back_offline (request : Request)
    (s : list (string * gmap string Response)) :
  match fetch request with
  | Resolved (Some r) => (500 <= status r)%N \/ accepts_body (status r) = false
  | _ => True
  end ->
  match Caches.match_in CACHE_NAME (Request_of "/offline.html") s with
  | Some cached =>
      if accepts_body (status cached)
      then exists r',
             fst (handleNavigationRequest request s) = Resolved (Some r') /\
             status r' = status cached /\ body r' = body cached /\
             Spec.hardened r'
      else exists e, fst (handleNavigationRequest request s) = Rejected e
  | None =>
      fst (handleNavigationRequest request s) = Resolved (Some offline_page) /\
      status offline_page = 503%N /\
      body offline_page = "<h1>Offline</h1>" /\
      Headers.get (headers offline_page) "Content-Type" = Some "text/html"
  end.
Proof.
  intros Hfails. rewrite (navigation_fallback request s Hfails). cbn [fst].
  destruct (Caches.match_in CACHE_NAME (Request_of "/offline.html") s) as [cached|].
  - destruct (accepts_body (status cached)) eqn:Ha.
    + rewrite addSecurityHeaders_accepted by exact Ha.
      eexists. split; [reflexivity|]. split; [reflexivity|]. split; [reflexivity|].
      apply hardened_copy.
    + apply addSecurityHeaders_refused, Ha.
  - repeat split.
Qed.

(** X8. A navigation that the network answers with a status below 500
    that the [Response] constructor accepts, a 404 as much as a 200, is
    answered with that response: status and body as they came, headers
    hardened, [Server] removed; the cache storage is neither read nor
    written. *)
Theorem navigation_shows_network_answer (request : Request)
    (s : list (string * gmap string Response)) (r : Response) :
  fetch request = Resolved (Some r) ->
  (status r < 500)%N ->
  accepts_body (status r) = true ->
  exists r',
    handleNavigationRequest request s = (Resolved (Some r'), s) /\
    status r' = status r /\ body r' = body r /\
    Spec.hardened r' /\ Headers.get (headers r') "Server" = None.
Proof.
  intros Hnet Hstatus Ha. rewrite (navigation_success request s r Hnet Hstatus Ha).
  eexists. split; [reflexivity|]. split; [reflexivity|]. split; [reflexivity|].
  split; [apply hardened_copy|].
  unfold Headers.get, Headers.delete. cbn [headers]. apply lookup_delete_eq.
Qed.

(** X9. [handleApiCalendar] never rejects: its promise always resolves,
    every response it resolves with carries the Security Header Set, and
    it resolves without a response only when the network did. *)
Theorem api_handler_never_rejects (request : Request) :
  exists v,
    handleApiCalendar request = Resolved v /\
    (forall r', v = Some r' -> Spec.hardened r') /\
    (v = None <-> fetch request = Resolved None).
Proof.
  pose proof (handleApiCalendar_hardened request) as Hhard.
  unfold handleApiCalendar in *.
  destruct (fetch request) as [[resp|]|e].
  - destruct (Str.includes _ _);
      [destruct (JSON_parse (body resp))
      |destruct (addSecurityHeadersToResponse (Some resp)) as [v|e] eqn:Hh;
       [destruct (addSecurityHeaders_resolved _ _ Hh) as [_ ->]|]];
      (eexists; split; [reflexivity|]; split;
       [intros r' E; apply Hhard; by rewrite E | split; discriminate]).
  - exists None. split; [reflexivity|]. split; [discriminate | done].
  - eexists. split; [reflexivity|]. split;
      [intros r' E; apply Hhard; by rewrite E | split; discriminate].
Qed.



Lemma assigned_or (obj : list (string * string)) (k : string) (acc : option string) :
  Headers.assigned obj k acc
  = match Headers.assigned obj k None with Some v => Some v | None => acc end.
Proof.
  revert acc. induction obj as [|kv obj IH]; intros acc; [reflexivity|].
  cbn [Headers.assigned].
  rewrite IH. rewrite (IH (if String.eqb _ _ then _ else None)).
  destruct (Headers.assigned obj k None); [reflexivity|].
  by destruct (String.eqb _ _).
Qed.

(** X11. Hardening twice is hardening once: hardening what a first
    hardening resolved with resolves with the same response, and where
    the first hardening throws, so does the whole. *)
Theorem addSecurityHeaders_idempotent (response : option Response) :
  await (addSecurityHeadersToResponse response) addSecurityHeadersToResponse
  = addSecurityHeadersToResponse response.
Proof.
  destruct response as [r|]; [|reflexivity].
  destruct (accepts_body (status r)) eqn:Ha.
  - rewrite addSecurityHeaders_accepted by exact Ha. cbn [await].
    rewrite addSecurityHeaders_accepted by exact Ha.
    cbn [status statusText headers body].
    f_equal. f_equal. f_equal. apply map_eq. intros k. unfold Headers.delete.
    change (Str.toLowerCase "Server") with "server".
    destruct (decide (k = "server")) as [->|Hne].
    + by rewrite !lookup_delete_eq.
    + rewrite !lookup_delete_ne by congruence.
      rewrite set_all_lookup, lookup_delete_ne by congruence.
      rewrite set_all_lookup.
      rewrite (assigned_or _ _ (Headers.assigned _ _ _)).
      rewrite (assigned_or _ _ (headers r !! k)).
      by destruct (Headers.assigned SECURITY_HEADERS k None).
  - destruct (addSecurityHeaders_refused r Ha) as [e He]. by rewrite He.
Qed.

Lemma networkFirst_catch_snd (request : Request) (err : Error)
    (s : list (string * gmap string Response)) :
  snd (networkFirst_catch request err s) = s.
Proof. unfold networkFirst_catch. by destruct (Caches.match_in _ _ _). Qed.

(** X12. A fetch event touches at most one cache entry: after [on_fetch]
    every lookup in another generation, and every lookup in the current
    generation for another URL than that of the request, reads as
    before. *)
Theorem fetch_touches_one_entry (req : Request)
    (s : list (string * gmap string Response)) (gen : string) (q : Request) :
  gen <> CACHE_NAME \/ url q <> url req ->
  Caches.match_in gen q (snd (on_fetch req s)) = Caches.match_in gen q s.
Proof.
  intros Hframe. rewrite on_fetch_route.
  destruct (Spec.route req); cbn [Spec.perform snd]; try reflexivity.
  - apply navigation_frame.
  - unfold networkFirstWithSecurity.
    destruct (fetch req) as [[r|]|e]; cbn [ok].
    + destruct (ok r).
      * assert (Hput : Caches.match_in gen q
                         match Caches.put CACHE_NAME req r (Caches.open CACHE_NAME s) with
                         | Resolved s' => s'
                         | Rejected _ => Caches.open CACHE_NAME s
                         end
                       = Caches.match_in gen q s).
        { unfold Caches.put. destruct (cache_accepts req r).
          - rewrite match_in_store_frame; [apply match_in_open_any|].
            destruct Hframe as [Hg|Hu]; [by left | right; congruence].
          - apply match_in_open_any. }
        destruct (addSecurityHeadersToResponse (Some r)); [exact Hput|].
        by rewrite networkFirst_catch_snd.
      * destruct (Caches.match_in CACHE_NAME req _);
          [destruct (addSecurityHeadersToResponse _)|];
          rewrite ?networkFirst_catch_snd; apply match_in_open_any.
    + destruct (Caches.match_in CACHE_NAME req _);
        [destruct (addSecurityHeadersToResponse _)|];
        rewrite ?networkFirst_catch_snd; apply match_in_open_any.
    + rewrite networkFirst_catch_snd. apply match_in_open_any.
Qed.

(** What the listener has checked once a message counts as coming from
    the worker's own origin. *)
Lemma message_from_own_origin (event : MessageEvent) (d : JSON) (t : string) :
  Spec.sender_origin event = Some ALLOWED_ORIGIN ->
  (forall src, source event = Some src -> source_url src <> Some "") ->
  data event = Some d ->
  type_is d t = true ->
  on_message event
  = Resolved
      ((if type_is d "SW_HEALTH_CHECK"
        then [PostToSource (SW_HEALTH_OK CACHE_NAME)] else [])
       ++ (if type_is d "CONFIRM_DELETE"
           then List.map
                  (fun client =>
                     PostToClient client (CONFIRM_DELETE (field d "projectId")))
                  window_clients
           else []))%list.
Proof.
  intros Horigin Hurl Hdata Htype. unfold on_message, message_body.
  unfold Spec.sender_origin in Horigin.
  destruct (source event) as [src|]; [|discriminate].
  specialize (Hurl src eq_refl).
  destruct (source_url src) as [u|]; [|discriminate].
  destruct (String.eqb_spec u "") as [->|_]; [congruence|].
  destruct (new_URL u) as [parsed|]; [|discriminate].
  cbn in Horigin. inversion Horigin as [Ho]. rewrite Ho, String.eqb_refl.
  cbn [negb]. rewrite Hdata.
  assert (Hobj : not_an_object (Some d) = false).
  { unfold type_is, field in Htype. by destruct d. }
  by rewrite Hobj.
Qed.

Lemma type_is_one (d : JSON) (t t' : string) :
  type_is d t = true -> t <> t' -> type_is d t' = false.
Proof.
  unfold type_is. destruct (field d "type") as [[| | |s| |]|]; try discriminate.
  intros E Hne. apply String.eqb_eq in E. subst s.
  by destruct (String.eqb_spec t t').
Qed.

(** X14. A [SW_HEALTH_CHECK] from a client of the worker's own origin
    gets exactly one message, sent to that client alone: [SW_HEALTH_OK]
    with the name of the cache generation as version. Nothing is
    broadcast. *)
Theorem health_check_is_answered (event : MessageEvent) (d : JSON) :
  Spec.sender_origin event = Some ALLOWED_ORIGIN ->
  (forall src, source event = Some src -> source_url src <> Some "") ->
  data event = Some d ->
  type_is d "SW_HEALTH_CHECK" = true ->
  on_message event = Resolved [PostToSource (SW_HEALTH_OK "arminos-static-v1")].
Proof.
  intros Horigin Hurl Hdata Htype.
  rewrite (message_from_own_origin event d _ Horigin Hurl Hdata Htype).
  rewrite Htype, (type_is_one d "SW_HEALTH_CHECK" "CONFIRM_DELETE" Htype);
    [reflexivity | discriminate].
Qed.

(** X15. A [CONFIRM_DELETE] from a client of the worker's own origin is
    relayed to every open window, once each and in their order, with the
    [projectId] of the message; the sender gets no reply of its own. *)
Theorem confirm_delete_is_relayed (event : MessageEvent) (d : JSON) :
  Spec.sender_origin event = Some ALLOWED_ORIGIN ->
  (forall src, source event = Some src -> source_url src <> Some "") ->
  data event = Some d ->
  type_is d "CONFIRM_DELETE" = true ->
  on_message event
  = Resolved
      (List.map
         (fun client => PostToClient client (CONFIRM_DELETE (field d "projectId")))
         window_clients).
Proof.
  intros Horigin Hurl Hdata Htype.
  rewrite (message_from_own_origin event d _ Horigin Hurl Hdata Htype).
  rewrite Htype, (type_is_one d "CONFIRM_DELETE" "SW_HEALTH_CHECK" Htype);
    [reflexivity | discriminate].
Qed.

(** X16. Navigation comes before the sensitive-API rule: a same-origin
    GET request under [/api/calendar] that is a navigation or accepts
    [text/html] is answered by the navigation handler, so a network
    answer below 500, with a status the [Response] constructor accepts,
    comes back with its body as sent, not sanitized. *)
Theorem html_accepting_api_request_is_not_sanitized (req : Request)
    (s : list (string * gmap string Response)) (r : Response) :
  method req = "GET" ->
  isSameOrigin req = true ->
  Spec.isSensitiveApiPath "/api/calendar" req = true ->
  Spec.isNavigation req = true ->
  fetch req = Resolved (Some r) ->
  (status r < 500)%N ->
  accepts_body (status r) = true ->
  exists r',
    on_fetch req s = (RespondWith (Resolved (Some r')), s) /\
    status r' = status r /\ body r' = body r.
Proof.
  intros Hm Ho _ Hnav Hnet Hstatus Ha. rewrite on_fetch_route.
  assert (Hroute : Spec.route req = Spec.NavigationHandling).
  { unfold Spec.route, Spec.precedence, Spec.first_match.
    rewrite Hm, Ho, Hnav. reflexivity. }
  rewrite Hroute. cbn [Spec.perform].
  rewrite (navigation_success req s r Hnet Hstatus Ha). cbn [fst snd].
  eexists. split; [reflexivity|]. by split.
Qed.

(** X17. [install] stores nothing, so the offline page is not there for
    it: every lookup reads after [install] as before, and when the
    current generation holds no [/offline.html], a navigation that fails
    right after [install] gets the synthesized 503 page. *)
Theorem install_stores_nothing (w : Worker) (request : Request) :
  (forall gen q,
      Caches.match_in gen q (caches (install w))
      = Caches.match_in gen q (caches w)) /\
  (Caches.match_in CACHE_NAME (Request_of "/offline.html") (caches w) = None ->
   match fetch request with
   | Resolved (Some r) => (500 <= status r)%N
   | _ => True
   end ->
   fst (handleNavigationRequest request (caches (install w)))
   = Resolved (Some offline_page)).
Proof.
  assert (Hsame : forall gen q,
             Caches.match_in gen q (caches (install w))
             = Caches.match_in gen q (caches w)).
  { intros gen q. cbn [install caches]. apply match_in_open_any. }
  split; [exact Hsame|]. intros Hmiss Hfails.
  assert (Hfails' : match fetch request with
                    | Resolved (Some r) =>
                        (500 <= status r)%N \/ accepts_body (status r) = false
                    | _ => True
                    end).
  { destruct (fetch request) as [[r|]|e]; [by left | done | done]. }
  rewrite (navigation_fallback request _ Hfails'). cbn [fst].
  by rewrite Hsame, Hmiss.
Qed.

End ArminOSMore.

(** ** More on activation *)

Section ActivationMore.

Lemma filter_filter_bool {A : Type} (f g : A -> bool) (l : list A) :
  List.filter f (List.filter g l) = List.filter (fun x => g x && f x) l.
Proof.
  induction l as [|x l IH]; [reflexivity|].
  cbn [List.filter]. destruct (g x); cbn [andb List.filter]; [|exact IH].
  destruct (f x); by rewrite IH.
Qed.

Lemma filter_all {A : Type} (f : A -> bool) (l : list A) :
  (forall x, In x l -> f x = true) -> List.filter f l = l.
Proof.
  induction l as [|x l IH]; intros Hall; [reflexivity|].
  cbn [List.filter]. rewrite (Hall x) by (by left). f_equal.
  apply IH. intros y Hy. apply Hall. by right.
Qed.

Lemma delete_unless_filter (keep : string -> bool) (l : list string)
    (s : list (string * gmap string Response)) :
  fold_left (fun s k => if keep k then s else Caches.delete k s) l s
  = List.filter
      (fun kc => keep (fst kc) || negb (existsb (String.eqb (fst kc)) l)) s.
Proof.
  revert s. induction l as [|k0 l IH]; intros s; cbn [fold_left existsb].
  - symmetry. apply filter_all. intros x _. apply orb_true_r.
  - rewrite IH. destruct (keep k0) eqn:Hk0.
    + apply filter_ext. intros [k c]. cbn [fst].
      destruct (String.eqb_spec k k0) as [->|]; [by rewrite Hk0 | reflexivity].
    + unfold Caches.delete. rewrite filter_filter_bool.
      apply filter_ext. intros [k c]. cbn [fst].
      destruct (String.eqb_spec k k0) as [->|]; [by rewrite Hk0 | reflexivity].
Qed.

Lemma activate_filter (c : string) (s : list (string * gmap string Response)) :
  fold_left (fun s k => if String.eqb k c then s else Caches.delete k s)
    (Caches.keys s) s
  = List.filter (fun kc => String.eqb (fst kc) c) s.
Proof.
  rewrite (delete_unless_filter (fun k => String.eqb k c)).
  apply filter_ext_in. intros [k c0] Hin. cbn [fst].
  assert (Hex : existsb (String.eqb k) (Caches.keys s) = true).
  { apply existsb_exists. exists k. split; [|apply String.eqb_refl].
    unfold Caches.keys. apply in_map_iff. by exists (k, c0). }
  rewrite Hex. apply orb_false_r.
Qed.

Lemma find_filter_name (c : string) (s : list (string * gmap string Response)) :
  Caches.find c (List.filter (fun kc => String.eqb (fst kc) c) s) = Caches.find c s.
Proof.
  induction s as [|[k c0] s IH]; [reflexivity|].
  cbn [List.filter fst Caches.find].
  destruct (String.eqb k c) eqn:E; [cbn [Caches.find]; by rewrite E | exact IH].
Qed.

(** X18. In both variants activation leaves the caches called
    [CACHE_NAME] exactly as they were and in their order, and nothing
    else; every lookup in the current generation reads after activation
    as before. *)
Theorem activation_keeps_current_entries (w : Worker) :
  (caches (ArminOS.activate w)
   = List.filter (fun kc => String.eqb (fst kc) ArminOS.CACHE_NAME) (caches w) /\
   forall q,
     Caches.match_in ArminOS.CACHE_NAME q (caches (ArminOS.activate w))
     = Caches.match_in ArminOS.CACHE_NAME q (caches w)) /\
  (caches (PlanOS.activate w)
   = List.filter (fun kc => String.eqb (fst kc) PlanOS.CACHE_NAME) (caches w) /\
   forall q,
     Caches.match_in PlanOS.CACHE_NAME q (caches (PlanOS.activate w))
     = Caches.match_in PlanOS.CACHE_NAME q (caches w)).
Proof.
  assert (Ha : caches (ArminOS.activate w)
               = List.filter (fun kc => String.eqb (fst kc) ArminOS.CACHE_NAME)
                   (caches w)).
  { unfold ArminOS.activate. cbn [caches].
    rewrite (delete_filtered (fun k => String.eqb k ArminOS.CACHE_NAME)).
    apply activate_filter. }
  assert (Hp : caches (PlanOS.activate w)
               = List.filter (fun kc => String.eqb (fst kc) PlanOS.CACHE_NAME)
                   (caches w)).
  { unfold PlanOS.activate. cbn [caches]. apply activate_filter. }
  split; (split; [assumption|]); intros q; unfold Caches.match_in.
  - by rewrite Ha, find_filter_name.
  - by rewrite Hp, find_filter_name.
Qed.

End ActivationMore.

(** ** More on the cache-first variant *)

Section PlanOSMore.
Context `{Platform}.
Import PlanOS.

Lemma match_any_app (q : Request) (s t : list (string * gmap string Response)) :
  Caches.match_any q (s ++ t)%list
  = match Caches.match_any q s with
    | Some r => Some r
    | None => Caches.match_any q t
    end.
Proof.
  induction s as [|[k c] s IH]; [reflexivity|].
  cbn. destruct (Caches.match_one c q); [reflexivity | exact IH].
Qed.

Lemma match_any_open (c : string) (q : Request)
    (s : list (string * gmap string Response)) :
  Caches.match_any q (Caches.open c s) = Caches.match_any q s.
Proof.
  unfold Caches.open. destruct (Caches.find c s); [reflexivity|].
  rewrite match_any_app. destruct (Caches.match_any q s); [reflexivity|].
  cbn. unfold Caches.match_one.
  by destruct (String.eqb (method q) "GET"); [rewrite lookup_empty|].
Qed.

Lemma match_any_store (c : string) (q : Request) (r : Response)
    (s : list (string * gmap string Response)) :
  method q = "GET" ->
  Caches.match_any q s = None ->
  is_Some (Caches.find c s) ->
  Caches.match_any q (Caches.store c (url q) r s) = Some r.
Proof.
  intros Hget. induction s as [|[k c0] s IH]; intros Hmiss Hfind.
  - by destruct Hfind.
  - cbn in Hmiss, Hfind. cbn [Caches.store].
    destruct (Caches.match_one c0 q) eqn:Hone; [discriminate|].
    destruct (String.eqb k c); cbn [Caches.match_any].
    + unfold Caches.match_one. rewrite Hget. cbn. by rewrite lookup_insert_eq.
    + rewrite Hone. by apply IH.
Qed.

(** The storage after a miss that the network answered for a same-origin
    GET request. *)
Lemma miss_is_stored (req : Request) (s : list (string * gmap string Response))
    (res : Response) (u : URL) :
  mode req <> "navigate" ->
  Caches.match_any req s = None ->
  fetch req = Resolved (Some res) ->
  method req = "GET" ->
  new_URL (url req) = Some u ->
  origin u = location_origin ->
  cache_accepts req res = true ->
  on_fetch req s
  = (RespondWith (Resolved (Some res)),
     Caches.store CACHE_NAME (url req) res (Caches.open CACHE_NAME s)).
Proof.
  intros Hmode Hmiss Hnet Hget Hurl Ho Hacc. unfold on_fetch.
  destruct (String.eqb_spec (mode req) "navigate"); [contradiction|].
  cbv zeta. rewrite Hmiss, Hnet, Hurl, Hget, Ho, !String.eqb_refl.
  cbn [andb]. unfold Caches.put. by rewrite Hacc.
Qed.

(** X19. The cache-first variant keeps the first answer: when a
    same-origin GET request that is no navigation misses the caches and
    the network answers, that answer is returned and stored in the
    current generation whatever its status, a 404 or a 500 as much as a
    200, and from then on the same request is answered with it on every
    platform, without the network. *)
Theorem first_answer_is_kept (req : Request)
    (s : list (string * gmap string Response)) (res : Response) (u : URL) :
  mode req <> "navigate" ->
  Caches.match_any req s = None ->
  fetch req = Resolved (Some res) ->
  method req = "GET" ->
  new_URL (url req) = Some u ->
  origin u = location_origin ->
  cache_accepts req res = true ->
  let s' := snd (on_fetch req s) in
  fst (on_fetch req s) = RespondWith (Resolved (Some res)) /\
  Caches.match_in CACHE_NAME req s' = Some res /\
  forall later : Platform,
    on_fetch (H := later) req s' = (RespondWith (Resolved (Some res)), s').
Proof.
  intros Hmode Hmiss Hnet Hget Hurl Ho Hacc.
  pose proof (miss_is_stored req s res u Hmode Hmiss Hnet Hget Hurl Ho Hacc) as E.
  rewrite E. cbn [fst snd]. split; [reflexivity|].
  split; [by apply match_in_store|].
  intros later. unfold on_fetch. cbv zeta.
  destruct (String.eqb_spec (mode req) "navigate"); [contradiction|].
  rewrite (match_any_store CACHE_NAME req res); [reflexivity | exact Hget | |].
  - by rewrite match_any_open.
  - rewrite find_open. by eexists.
Qed.

(** X20. The cache-first variant stores nothing for a request that is
    not GET, not same-origin or whose URL does not parse: on a miss the
    answer of the network is returned as it is and the cache storage
    is left as it was. *)
Theorem foreign_answers_are_not_stored (req : Request)
    (s : list (string * gmap string Response)) (res : option Response) :
  mode req <> "navigate" ->
  Caches.match_any req s = None ->
  fetch req = Resolved res ->
  match new_URL (url req) with
  | Some u => method req <> "GET" \/ origin u <> location_origin
  | None => True
  end ->
  on_fetch req s = (RespondWith (Resolved res), s).
Proof.
  intros Hmode Hmiss Hnet Hforeign. unfold on_fetch. cbv zeta.
  destruct (String.eqb_spec (mode req) "navigate"); [contradiction|].
  rewrite Hmiss, Hnet.
  destruct (new_URL (url req)) as [u|]; [|reflexivity].
  destruct Hforeign as [Hm|Ho].
  - by destruct (String.eqb_spec (method req) "GET").
  - destruct (String.eqb_spec (origin u) location_origin); [contradiction|].
    by rewrite andb_false_r.
Qed.

Lemma fetch_all_resolves (urls : list string) :
  (exists l, Caches.fetch_all urls = Resolved l) <-> Forall Caches.answered_ok urls.
Proof.
  induction urls as [|u urls IH]; cbn [Caches.fetch_all].
  - split; [constructor | by eexists].
  - split.
    + intros [l Hl].
      destruct (fetch (Request_of u)) as [[r|]|e] eqn:Hnet; try discriminate.
      destruct (ok r && cache_accepts (Request_of u) r) eqn:Hok; [|discriminate].
      apply andb_true_iff in Hok. destruct Hok as [Hok Hacc].
      destruct (Caches.fetch_all urls) as [l'|] eqn:Hrest; [|discriminate].
      constructor; [by exists r | apply IH; by eexists].
    + intros Hall. inversion Hall as [|? ? (r & Hnet & Hok & Hacc) Hrest]; subst.
      apply IH in Hrest. destruct Hrest as [l' Hl'].
      rewrite Hnet, Hok, Hacc, Hl'. by eexists.
Qed.

(** X21. [install] of the cache-first variant succeeds exactly when every
    asset of [ASSETS] is fetched with a 2xx status and accepted by the
    cache. When it fails, [skipWaiting] is not called and nothing is
    stored, but the current generation has been created all the same. *)
Theorem install_needs_every_asset (w : Worker) :
  ((exists w1, install w = (Resolved tt, w1)) <-> Forall Caches.answered_ok ASSETS) /\
  (forall e w1,
      install w = (Rejected e, w1) ->
      skipped_waiting w1 = skipped_waiting w /\
      CACHE_NAME ∈ generations w1 /\
      forall gen q,
        Caches.match_in gen q (caches w1) = Caches.match_in gen q (caches w)).
Proof.
  split.
  - rewrite <- fetch_all_resolves. unfold install, Caches.addAll.
    destruct (Caches.fetch_all ASSETS) as [l|e]; split.
    + intros _. by eexists.
    + intros _. by eexists.
    + intros [w1 E]. discriminate E.
    + intros [l E]. discriminate E.
  - intros e w1 Hinst. unfold install in Hinst.
    destruct (Caches.addAll _ _ _) as [s2|e']; inversion Hinst; subst.
    cbn [skipped_waiting caches]. split; [reflexivity|]. split.
    + apply elem_of_generations. cbn [caches]. apply keys_open. by right.
    + intros gen q. apply match_in_open_any.
Qed.

Lemma fetch_all_pairs (urls : list string) (l : list (Request * Response)) :
  Caches.fetch_all urls = Resolved l ->
  (forall u, In u urls ->
     exists r, fetch (Request_of u) = Resolved (Some r) /\ In (Request_of u, r) l) /\
  (forall q r, In (q, r) l -> fetch q = Resolved (Some r)).
Proof.
  revert l. induction urls as [|u urls IH]; intros l Hl; cbn [Caches.fetch_all] in Hl.
  - inversion Hl; subst. split; [intros ? [] | intros ? ? []].
  - destruct (fetch (Request_of u)) as [[r|]|e] eqn:Hnet; try discriminate.
    destruct (ok r && cache_accepts (Request_of u) r); [|discriminate].
    destruct (Caches.fetch_all urls) as [l'|] eqn:Hrest; [|discriminate].
    inversion Hl; subst l. destruct (IH l' eq_refl) as [IHu IHq]. split.
    + intros u' [->|Hin].
      * exists r. split; [exact Hnet | by left].
      * destruct (IHu u' Hin) as (r' & Hr' & Hin'). exists r'. split; [exact Hr' | by right].
    + intros q r' [E|Hin]; [inversion E; by subst | by apply IHq].
Qed.

Lemma find_fold_store (c : string) (l : list (Request * Response))
    (s : list (string * gmap string Response)) :
  Caches.find c
    (fold_left (fun s qr => Caches.store c (url (fst qr)) (snd qr) s) l s)
  = option_map
      (fun c0 => fold_left (fun m qr => <[url (fst qr) := snd qr]> m) l c0)
      (Caches.find c s).
Proof.
  revert s. induction l as [|qr l IH]; intros s; cbn [fold_left].
  - by destruct (Caches.find c s).
  - rewrite IH, find_store. by destruct (Caches.find c s).
Qed.

Lemma lookup_fold_insert (l : list (Request * Response)) (m : gmap string Response)
    (q : Request) (r : Response) :
  (forall q1 r1 q2 r2,
      In (q1, r1) l -> In (q2, r2) l -> url q1 = url q2 -> r1 = r2) ->
  In (q, r) l ->
  fold_left (fun m qr => <[url (fst qr) := snd qr]> m) l m !! url q = Some r.
Proof.
  revert q r. induction l as [|[q0 r0] l IH] using rev_ind; intros q r Hfun Hin;
    [destruct Hin|].
  rewrite fold_left_app. cbn [fold_left fst snd].
  destruct (decide (url q0 = url q)) as [E|Hne].
  - rewrite E, lookup_insert_eq. f_equal.
    apply (Hfun q0 r0 q r); [apply in_or_app; right; by left | exact Hin | exact E].
  - rewrite lookup_insert_ne by exact Hne.
    apply in_app_or in Hin. destruct Hin as [Hin|[E|[]]].
    + apply IH; [|exact Hin]. intros q1 r1 q2 r2 H1 H2.
      apply Hfun; apply in_or_app; by left.
    + inversion E; subst. contradiction.
Qed.

Lemma find_filter_head (c : string) (c0 : gmap string Response)
    (s : list (string * gmap string Response)) :
  Caches.find c s = Some c0 ->
  exists rest,
    List.filter (fun kc => String.eqb (fst kc) c) s = (c, c0) :: rest.
Proof.
  induction s as [|[k c1] s IH]; intros Hfind; [discriminate|].
  cbn [Caches.find] in Hfind. cbn [List.filter fst].
  destruct (String.eqb_spec k c) as [->|]; [|by apply IH].
  inversion Hfind; subst. by eexists.
Qed.

(** X22. After [install] has succeeded and the worker is activated, every
    navigation is answered with the [./index.html] that [install]
    fetched, whatever is requested and whatever the network would answer
    now; the cache storage is left as it is. *)
Theorem navigation_gets_installed_shell (w w1 : Worker) (req : Request) :
  install w = (Resolved tt, w1) ->
  mode req = "navigate" ->
  exists shell,
    fetch (Request_of "./index.html") = Resolved (Some shell) /\
    on_fetch req (caches (activate w1))
    = (RespondWith (Resolved (Some shell)), caches (activate w1)).
Proof.
  intros Hinst Hnav. unfold install, Caches.addAll in Hinst.
  destruct (Caches.fetch_all ASSETS) as [l|e] eqn:Hall; inversion Hinst; subst w1.
  clear Hinst. destruct (fetch_all_pairs ASSETS l Hall) as [Hassets Hpairs].
  destruct (Hassets "./index.html") as (shell & Hshell & Hin);
    [right; by left|].
  exists shell. split; [exact Hshell|].
  unfold on_fetch. rewrite Hnav. cbn [String.eqb Ascii.eqb Bool.eqb].
  unfold activate at 1. cbn [caches]. rewrite activate_filter.
  set (s1 := Caches.open CACHE_NAME (caches w)).
  set (s2 := fold_left _ l s1).
  assert (Hfind : Caches.find CACHE_NAME s2
                  = Some (fold_left (fun m qr => <[url (fst qr) := snd qr]> m) l
                            (default ∅ (Caches.find CACHE_NAME (caches w))))).
  { unfold s2, s1. by rewrite find_fold_store, find_open. }
  destruct (find_filter_head _ _ _ Hfind) as [rest Hfilter].
  rewrite Hfilter. cbn [Caches.match_any]. unfold Caches.match_one.
  cbn [Request_of method String.eqb Ascii.eqb Bool.eqb].
  change (url (Request_of "./index.html")) with (resolve "./index.html").
  assert (Hlook :
    fold_left (fun m qr => <[url (fst qr) := snd qr]> m) l
      (default ∅ (Caches.find CACHE_NAME (caches w)))
    !! url (Request_of "./index.html") = Some shell).
  { apply lookup_fold_insert; [|exact Hin].
    intros q1 r1 q2 r2 H1 H2 Hu.
    assert (Hq : q1 = q2).
    { clear -Hall H1 H2 Hu. revert l Hall H1 H2.
      assert (Hreq : forall l, Caches.fetch_all ASSETS = Resolved l ->
                 forall q r, In (q, r) l -> exists u0, q = Request_of u0).
      { generalize ASSETS. intros urls. induction urls as [|u0 urls IH];
          intros l0 Hl0 q r Hq; cbn [Caches.fetch_all] in Hl0.
        - inversion Hl0; subst. destruct Hq.
        - destruct (fetch (Request_of u0)) as [[r0|]|e0]; try discriminate.
          destruct (ok r0 && cache_accepts (Request_of u0) r0); [|discriminate].
          destruct (Caches.fetch_all urls) as [l'|]; [|discriminate].
          inversion Hl0; subst l0. destruct Hq as [E|Hq].
          + inversion E; subst. by eexists.
          + by apply (IH l' eq_refl q r). }
      intros l Hall H1 H2.
      destruct (Hreq l Hall q1 r1 H1) as [u1 ->].
      destruct (Hreq l Hall q2 r2 H2) as [u2 ->].
      unfold Request_of in *. cbn [url] in Hu. by rewrite Hu. }
    subst q2. pose proof (Hpairs q1 r1 H1) as E1. pose proof (Hpairs q1 r2 H2) as E2.
    congruence. }
  change (url (Request_of "./index.html")) with (resolve "./index.html") in Hlook.
  by rewrite Hlook.
Qed.

End PlanOSMore.

(** ** The further properties on concrete inputs *)

Section MoreExamples.
Import Scenario.

Lemma sanitizeString_plain_text_witness :
  Sanitizer.sanitizeString "Team meeting at noon, online" = "Team meeting at noon, online".
Proof.
  apply sanitizeString_plain_text; vm_compute; intuition discriminate.
Defined.

Lemma sanitizeJsonStrings_keeps_shape_witness :
  Spec.at_path (Sanitizer.sanitizeJsonStrings mixed_doc) [Spec.Field "count"]
  = Some (JNumber "3").
Proof.
  apply (sanitizeJsonStrings_keeps_shape mixed_doc [Spec.Field "count"]).
  - cbn. repeat constructor; cbn; intuition discriminate.
  - cbn. intuition discriminate.
  - reflexivity.
  - exact I.
Defined.

Lemma sanitizeJsonStrings_keeps_names_witness :
  Sanitizer.sanitizeJsonStrings mixed_doc
  = JObject [("count", JNumber "3");
             ("<script>x</script>", JBool true);
             ("items", JArray [JString "evil()"; JNull])].
Proof.
  unfold mixed_doc. rewrite sanitizeJsonStrings_keeps_names.
  - vm_compute. reflexivity.
  - cbn. repeat constructor; cbn; intuition discriminate.
  - cbn. intuition discriminate.
Defined.

Lemma navigation_falls_back_offline_witness :
  fst (ArminOS.handleNavigationRequest (H := all_offline) page_navigation fresh)
  = Resolved (Some (ArminOS.offline_page)).
Proof.
  apply (navigation_falls_back_offline (H := all_offline) page_navigation fresh).
  exact I.
Defined.

Lemma navigation_shows_network_answer_witness :
  exists r',
    ArminOS.handleNavigationRequest (H := missing_online) page_navigation fresh
    = (Resolved (Some r'), fresh) /\
    status r' = 404%N /\ body r' = "no such file".
Proof.
  destruct (navigation_shows_network_answer (H := missing_online)
              page_navigation fresh not_found) as (r' & Hr' & Hs & Hb & _);
    [reflexivity | reflexivity | reflexivity |].
  exists r'. split; [exact Hr'|]. split; [exact Hs | exact Hb].
Defined.


Lemma fetch_touches_one_entry_witness :
  Caches.match_in ArminOS.CACHE_NAME events_request
    (snd (ArminOS.on_fetch (H := logo_online) logo_request
            (holding events_request stale_events)))
  = Some stale_events.
Proof.
  rewrite (fetch_touches_one_entry (H := logo_online)).
  - vm_compute. reflexivity.
  - right. discriminate.
Defined.

Lemma health_check_is_answered_witness :
  ArminOS.on_message (H := two_windows) health_check
  = Resolved [ArminOS.PostToSource (ArminOS.SW_HEALTH_OK "arminos-static-v1")].
Proof.
  apply (health_check_is_answered (H := two_windows) health_check
           (JObject [("type", JString "SW_HEALTH_CHECK")]));
    [reflexivity | | reflexivity | reflexivity].
  intros src E. inversion E; subst src. discriminate.
Defined.

Lemma confirm_delete_is_relayed_witness :
  ArminOS.on_message (H := two_windows) delete_project
  = Resolved
      [ArminOS.PostToClient "https://arminos.example/app"
         (ArminOS.CONFIRM_DELETE (Some (JString "p-42")));
       ArminOS.PostToClient "https://arminos.example/settings"
         (ArminOS.CONFIRM_DELETE (Some (JString "p-42")))].
Proof.
  apply (confirm_delete_is_relayed (H := two_windows) delete_project
           (JObject [("type", JString "CONFIRM_DELETE");
                     ("projectId", JString "p-42")]));
    [reflexivity | | reflexivity | reflexivity].
  intros src E. inversion E; subst src. discriminate.
Defined.

Lemma html_accepting_api_request_is_not_sanitized_witness :
  exists r',
    ArminOS.on_fetch (H := calendar_online) html_events_request fresh
    = (RespondWith (Resolved (Some r')), fresh) /\
    body r' = print events_doc.
Proof.
  destruct (html_accepting_api_request_is_not_sanitized (H := calendar_online)
              html_events_request fresh events_answer) as (r' & Hr' & _ & Hb);
    [reflexivity | reflexivity | reflexivity | vm_compute; reflexivity
    | reflexivity | reflexivity | reflexivity |].
  exists r'. split; [exact Hr' | exact Hb].
Defined.

Lemma first_answer_is_kept_witness :
  PlanOS.on_fetch (H := all_offline) logo_request
    (snd (PlanOS.on_fetch (H := missing_online) logo_request []))
  = (RespondWith (Resolved (Some not_found)),
     snd (PlanOS.on_fetch (H := missing_online) logo_request [])).
Proof.
  apply (first_answer_is_kept (H := missing_online) logo_request [] not_found
           {| origin := here; pathname := "/img/logo.svg" |});
    [discriminate | reflexivity | reflexivity | reflexivity
    | vm_compute; reflexivity | reflexivity | reflexivity].
Defined.

Lemma foreign_answers_are_not_stored_witness :
  PlanOS.on_fetch (H := calendar_online) form_post []
  = (RespondWith (Resolved (Some events_answer)), []).
Proof.
  apply (foreign_answers_are_not_stored (H := calendar_online) form_post []);
    [discriminate | reflexivity | reflexivity |].
  vm_compute. left. discriminate.
Defined.

Lemma install_needs_every_asset_witness :
  skipped_waiting (snd (PlanOS.install (H := missing_online) upgraded)) = false /\
  PlanOS.CACHE_NAME ∈ generations (snd (PlanOS.install (H := missing_online) upgraded)).
Proof.
  destruct (install_needs_every_asset (H := missing_online) upgraded) as [_ Hfail].
  destruct (Hfail {| name := "TypeError"; message := "Cache.addAll" |}
              (snd (PlanOS.install (H := missing_online) upgraded)))
    as (Hskip & Hgen & _); [vm_compute; reflexivity|].
  split; [exact Hskip | exact Hgen].
Defined.

Lemma navigation_gets_installed_shell_witness :
  PlanOS.on_fetch (H := logo_online) page_navigation
    (caches (PlanOS.activate (snd (PlanOS.install (H := logo_online) upgraded))))
  = (RespondWith (Resolved (Some logo_answer)),
     caches (PlanOS.activate (snd (PlanOS.install (H := logo_online) upgraded)))).
Proof.
  destruct (navigation_gets_installed_shell (H := logo_online) upgraded
              (snd (PlanOS.install (H := logo_online) upgraded)) page_navigation)
    as (shell & Hshell & Hnav); [vm_compute; reflexivity | reflexivity |].
  inversion Hshell; subst shell. exact Hnav.
Defined.

End MoreExamples.

(** ** Online, then offline *)

Section RoundTrip.
Context `{Platform}.
Import ArminOS.

(** X13. What the default handler fetched online it serves offline,
    unless the status is 204 or 205: after a GET request was answered with
    a 2xx status and the cache accepted the write, the same request on a
    platform whose network fails is answered with the status and body of
    that answer, hardened. An answer with status 204 or 205 is stored as
    well, but hardening it throws, online and offline, and the promise
    rejects. *)
Theorem fetched_online_served_offline (request : Request)
    (s : list (string * gmap string Response)) (r : Response) :
  fetch request = Resolved (Some r) ->
  (200 <= status r <= 299)%N ->
  method request = "GET" ->
  cache_accepts request r = true ->
  let s' := snd (networkFirstWithSecurity request s) in
  forall (later : Platform) (e : Error),
    fetch (Platform := later) request = Rejected e ->
    Caches.match_in CACHE_NAME request s' = Some r /\
    if null_body_status (status r)
    then exists e',
           fst (networkFirstWithSecurity (H := later) request s') = Rejected e'
    else exists r',
           fst (networkFirstWithSecurity (H := later) request s') = Resolved (Some r') /\
           status r' = status r /\ body r' = body r /\ Spec.hardened r'.
Proof.
  intros Hnet [Hlo Hhi] Hget Hacc s'.
  assert (Hok : ok r = true).
  { unfold ok. apply andb_true_iff. split; by apply N.leb_le. }
  assert (Hs' : Caches.match_in CACHE_NAME request s' = Some r).
  { unfold s', networkFirstWithSecurity. rewrite Hnet, Hok.
    assert (Hput : Caches.match_in CACHE_NAME request
                     match Caches.put CACHE_NAME request r (Caches.open CACHE_NAME s) with
                     | Resolved s1 => s1
                     | Rejected _ => Caches.open CACHE_NAME s
                     end
                   = Some r).
    { unfold Caches.put. rewrite Hacc. by apply match_in_store. }
    destruct (addSecurityHeadersToResponse (Some r)); [exact Hput|].
    by rewrite networkFirst_catch_snd. }
  intros later e Hlater. split; [exact Hs'|].
  assert (Hlater' : fst (networkFirstWithSecurity (H := later) request s')
                    = addSecurityHeadersToResponse (Some r)).
  { unfold networkFirstWithSecurity. rewrite Hlater.
    rewrite (networkFirst_catch_cached request e _ r); [reflexivity|].
    by rewrite match_in_open. }
  rewrite Hlater'.
  assert (Ha : accepts_body (status r) = negb (null_body_status (status r))).
  { unfold accepts_body.
    assert (H200 : (200 <=? status r)%N = true) by (by apply N.leb_le).
    assert (H599 : (status r <=? 599)%N = true) by (apply N.leb_le; lia).
    by rewrite H200, H599. }
  destruct (null_body_status (status r)).
  - apply addSecurityHeaders_refused, Ha.
  - rewrite addSecurityHeaders_accepted by exact Ha.
    eexists. split; [reflexivity|]. split; [reflexivity|]. split; [reflexivity|].
    apply hardened_copy.
Qed.

End RoundTrip.

Section RoundTripExamples.
Import Scenario.

Lemma fetched_online_served_offline_witness :
  exists r',
    fst (ArminOS.networkFirstWithSecurity (H := all_offline) logo_request
           (snd (ArminOS.networkFirstWithSecurity (H := logo_online) logo_request fresh)))
    = Resolved (Some r') /\
    status r' = 200%N /\ body r' = "<svg/>".
Proof.
  destruct (fetched_online_served_offline (H := logo_online) logo_request fresh
              logo_answer eq_refl ltac:(cbn; lia) eq_refl eq_refl all_offline
              {| name := "TypeError"; message := "Failed to fetch" |} eq_refl)
    as (_ & r' & Hr' & Hs & Hb & _).
  exists r'. split; [exact Hr'|]. split; [exact Hs | exact Hb].
Defined.

Lemma default_handler_propagates_failure_witness :
  ArminOS.networkFirstWithSecurity (H := all_offline) logo_request fresh
  = (Rejected {| name := "TypeError"; message := "Failed to fetch" |},
     Caches.open ArminOS.CACHE_NAME fresh).
Proof.
  apply (default_handler_propagates_failure (H := all_offline) logo_request fresh);
    [reflexivity | vm_compute; reflexivity].
Defined.

Lemma non_json_answer_passes_through_witness :
  exists r',
    ArminOS.handleApiCalendar (H := logo_online) events_request = Resolved (Some r') /\
    status r' = 200%N /\ body r' = "<svg/>".
Proof.
  destruct (non_json_answer_passes_through (H := logo_online) events_request
              logo_answer) as [Hsent _];
    [reflexivity | vm_compute; reflexivity |].
  destruct (Hsent eq_refl) as (r' & Hr' & _ & Hs & Hb).
  exists r'. split; [exact Hr'|]. split; [exact Hs | exact Hb].
Defined.

End RoundTripExamples.

Section InstallExamples.
Import Scenario.

Lemma install_stores_nothing_witness :
  fst (ArminOS.handleNavigationRequest (H := all_offline) page_navigation
         (caches (ArminOS.install upgraded)))
  = Resolved (Some ArminOS.offline_page).
Proof.
  apply (install_stores_nothing (H := all_offline) upgraded page_navigation);
    [vm_compute; reflexivity | exact I].
Defined.

End InstallExamples.
